(** * file_catalog: the metadata consistency engine

    A shallow embedding of [file_catalog/mongo.py] (the [Mongo] store
    wrapper) and of the API handlers of [file_catalog/server.py], with the
    properties of the catalog stated over them.

    Documents are Python dicts: finite maps from field names to JSON
    values.  The MongoDB collections are lists of documents in natural
    (insertion) order.  Handlers are computations in a state-and-exception
    monad over the three collections; the [catch_error] decorator turns a
    raised exception into the handler's error response. *)

From Stdlib Require Import ZArith Ascii.
From stdpp Require Import base option list strings pretty gmap fin_maps.

Local Open Scope Z_scope.

(** ** JSON values *)

(** The values a document field can hold.  [VObjectId] is the store's row
    identifier type; objects nested inside a document keep their fields in
    order, as BSON does. *)
#[local] Unset Elimination Schemes.
Inductive value : Type :=
| VNull
| VBool (b : bool)
| VInt (z : Z)
| VStr (s : string)
| VObjectId (n : Z)
| VList (l : list value)
| VObj (fields : list (string * value)).
#[local] Set Elimination Schemes.

Global Instance value_inhabited : Inhabited value := populate VNull.

Fixpoint value_eqb (x y : value) {struct x} : bool :=
  match x, y with
  | VNull, VNull => true
  | VBool a, VBool b => bool_decide (a = b)
  | VInt a, VInt b => bool_decide (a = b)
  | VStr a, VStr b => bool_decide (a = b)
  | VObjectId a, VObjectId b => bool_decide (a = b)
  | VList l1, VList l2 =>
      (fix go (l1 l2 : list value) {struct l1} : bool :=
         match l1, l2 with
         | [], [] => true
         | a :: l1, b :: l2 => value_eqb a b && go l1 l2
         | _, _ => false
         end) l1 l2
  | VObj f1, VObj f2 =>
      (fix go (l1 l2 : list (string * value)) {struct l1} : bool :=
         match l1, l2 with
         | [], [] => true
         | (k1, a) :: l1, (k2, b) :: l2 =>
             bool_decide (k1 = k2) && value_eqb a b && go l1 l2
         | _, _ => false
         end) f1 f2
  | _, _ => false
  end.

(** Induction over values, through the nested lists. *)
Section value_ind.
Variable P : value → Prop.
Hypothesis HNull : P VNull.
Hypothesis HBool : ∀ b, P (VBool b).
Hypothesis HInt : ∀ z, P (VInt z).
Hypothesis HStr : ∀ s, P (VStr s).
Hypothesis HObjectId : ∀ n, P (VObjectId n).
Hypothesis HList : ∀ l, Forall P l → P (VList l).
Hypothesis HObj : ∀ fs, Forall (λ kv, P kv.2) fs → P (VObj fs).

Fixpoint value_ind (v : value) : P v :=
  match v with
  | VNull => HNull
  | VBool b => HBool b
  | VInt z => HInt z
  | VStr s => HStr s
  | VObjectId n => HObjectId n
  | VList l =>
      HList l ((fix go (l : list value) : Forall P l :=
                  match l with
                  | [] => List.Forall_nil P
                  | x :: l' => List.Forall_cons P x l' (value_ind x) (go l')
                  end) l)
  | VObj fs =>
      HObj fs ((fix go (l : list (string * value))
                  : Forall (λ kv, P kv.2) l :=
                  match l with
                  | [] => List.Forall_nil _
                  | kv :: l' =>
                      List.Forall_cons (λ kv, P kv.2) kv l' (value_ind kv.2) (go l')
                  end) fs)
  end.
End value_ind.

Lemma value_eqb_eq (x y : value) : value_eqb x y = true ↔ x = y.
Proof.
  revert y. induction x as [| | | | |l IH|fs IH] using value_ind;
    intros [] ; simpl; try (split; [done | congruence]);
    try (rewrite bool_decide_eq_true; split; congruence).
  - rename l0 into l2. revert l2.
    induction IH as [|a l Ha _ IHl]; intros [|b l2];
      try (split; [done | congruence]).
    rewrite andb_true_iff, Ha. specialize (IHl l2).
    split.
    + intros [-> Hl]. apply IHl in Hl. congruence.
    + intros [= -> ->]. split; [done|]. by apply IHl.
  - rename fields into f2. revert f2.
    induction IH as [|[k a] l Ha _ IHl]; intros [|[k2 b] l2];
      try (split; [done | congruence]).
    rewrite !andb_true_iff, bool_decide_eq_true. simpl in Ha. rewrite Ha.
    specialize (IHl l2).
    split.
    + intros [[-> ->] Hl]. apply IHl in Hl. congruence.
    + intros [= -> -> ->]. split; [done|]. by apply IHl.
Qed.

Global Instance value_eq_dec : EqDecision value.
Proof.
  intros x y. destruct (value_eqb x y) eqn:Heq.
  - left. by apply value_eqb_eq.
  - right. intros Hxy. apply value_eqb_eq in Hxy. congruence.
Defined.

(** A document ([types.Metadata], [Dict[str, Any]]). *)
Abbreviation Metadata := (gmap string value).

(** ** Exceptions and results *)

Inductive Exn : Type :=
| KeyError (key : string)
| TypeError (msg : string)
| DuplicateKeyError (index : string)
| ValueError (msg : string)
| WriteError (msg : string)
| OperationFailure (msg : string)
| Exception (msg : string).

Inductive Result (A : Type) : Type :=
| Ok (a : A)
| Raise (e : Exn).
Global Arguments Ok {A} a.
Global Arguments Raise {A} e.

(** What a handler sends back: the status code and the JSON body written
    ([set_status], [write], [send_error]). *)
Record Response : Type := mkResponse {
  status : Z;
  body : Metadata;
}.

(** ** The document store

    MongoDB is consumed as a capability.  A collection is the list of its
    documents in natural order, each carrying its row identifier under
    ["_id"].  Queries and projections name top-level fields; a query on a
    field compares the stored value with the given one, and [$elemMatch]
    looks for an array element equal to its operand (the exact location).
    A single-document write is all or nothing, and the unique indexes are
    checked on the keys the write adds. *)

Inductive Coll : Type := Files | Collections | Snapshots.

Record Database : Type := mkDatabase {
  files : list Metadata;
  collections : list Metadata;
  snapshots : list Metadata;
  next_id : Z;        (* the next ObjectId the store assigns *)
}.

(** The query documents the code builds. *)
Inductive Filter : Type :=
| FAll                                       (* [None], [{}] *)
| FEq (key : string) (v : value)             (* [{key: v}] *)
| FElemMatch (key : string) (elem : value)   (* [{key: {'$elemMatch': elem}}] *)
| FIn (key : string) (vs : list value)       (* [{key: {'$in': vs}}] *)
| FQuery (q : value).                        (* a query document decoded from JSON *)

(** [$addToSet] operands: [{"$each": vs}] or a single value. *)
Inductive AddToSet : Type :=
| Each (vs : list value)
| Single (v : value).

(** An update document [{"$addToSet": ..., "$set": ...}]. *)
Record Update : Type := mkUpdate {
  u_addToSet : gmap string AddToSet;
  u_set : Metadata;
}.

Record UpdateResult : Type := mkUpdateResult {
  matched_count : Z;
  modified_count : option Z;
}.

(** ** Collaborators outside [mongo.py] and [server.py]

    The schema validator, the path pre-check, the argument builders and the
    JSON codec are used by the handlers but defined elsewhere; the handlers
    are stated over any implementation of them.  A check that fails has
    already sent its own error response, which is what it returns here;
    [None] means the check passed. *)
Record Env : Type := mkEnv {
  (* handler configuration *)
  base_url : string;
  debug : bool;
  (* the store's evaluation of a decoded query document *)
  eval_query : value → Metadata → bool;
  (* schema.validation.Validation *)
  validate_metadata_creation : Metadata → option Response;
  validate_metadata_modification : Metadata → option Response;
  has_forbidden_attributes_modification : Metadata → Metadata → option Response;
  (* pathfinder *)
  contains_existing_filepaths :
    Database → Metadata → option string → option Response;
  (* argbuilder.build_files_query: [None] when it raises *)
  build_files_query : Metadata → option Metadata;
  (* tornado.escape *)
  json_encode : value → string;
  json_decode : string → option value;
  (* Python's [str()] of a value that is not a string *)
  py_str : value → string;
}.

Module Store.
Section store.
Context (E : Env).

Definition docs (c : Coll) (db : Database) : list Metadata :=
  match c with
  | Files => files db
  | Collections => collections db
  | Snapshots => snapshots db
  end.

Definition set_docs (c : Coll) (l : list Metadata) (db : Database)
  : Database :=
  match c with
  | Files => mkDatabase l (collections db) (snapshots db) (next_id db)
  | Collections => mkDatabase (files db) l (snapshots db) (next_id db)
  | Snapshots => mkDatabase (files db) (collections db) l (next_id db)
  end.

(** The unique indexes declared by [Mongo.create_indexes], with the
    store's own one on ["_id"]. *)
Definition unique_indexes (c : Coll) : list string :=
  match c with
  | Files => ["_id"; "uuid"; "logical_name"; "locations"]
  | Collections => ["_id"; "uuid"]
  | Snapshots => ["_id"; "uuid"]
  end.

Definition matches (f : Filter) (d : Metadata) : bool :=
  match f with
  | FAll => true
  | FEq k v => bool_decide (d !! k = Some v)
  | FElemMatch k e =>
      match d !! k with
      | Some (VList l) => bool_decide (e ∈ l)
      | _ => false
      end
  | FIn k vs =>
      match d !! k with
      | Some v => bool_decide (v ∈ vs)
      | None => false
      end
  | FQuery q => eval_query E q d
  end.

(** The store rejects an [$elemMatch] whose operand is not a document. *)
Definition well_formed (f : Filter) : bool :=
  match f with
  | FElemMatch _ (VObj _) => true
  | FElemMatch _ _ => false
  | _ => true
  end.

(** *** Projections *)

(** A projection that names a field to include returns only the fields
    it includes; the row identifier comes along unless it is excluded. *)
Definition inclusion_mode (p : gmap string bool) : bool :=
  let named := delete "_id" p in
  bool_decide (map_Exists (λ _ b, b = true) named)
  || (bool_decide (named = ∅) && bool_decide (p !! "_id" = Some true)).

Definition keeps (p : gmap string bool) (k : string) : bool :=
  if inclusion_mode p then
    if bool_decide (k = "_id") then
      negb (bool_decide (p !! "_id" = Some false))
    else bool_decide (p !! k = Some true)
  else negb (bool_decide (p !! k = Some false)).

Definition apply_projection (p : gmap string bool) (d : Metadata)
  : Metadata :=
  filter (λ kv, keeps p kv.1 = true) d.

(** *** Unique indexes *)

(** The index keys of a document for a field: the elements of an array
    (a multikey index), the value itself otherwise, null when the field
    is missing. *)
Definition index_keys (field : string) (d : Metadata) : list value :=
  match d !! field with
  | Some (VList (x :: l)) => x :: l
  | Some v => [v]
  | None => [VNull]
  end.

(** A key that the write adds to the index and that another document
    already holds. *)
Definition collides (field : string) (others : list Metadata)
  (old : option Metadata) (new : Metadata) : bool :=
  existsb
    (λ key,
       negb (bool_decide (key ∈ from_option (index_keys field) [] old))
       && existsb (λ d, bool_decide (key ∈ index_keys field d)) others)
    (index_keys field new).

Definition duplicate_key (c : Coll) (others : list Metadata)
  (old : option Metadata) (new : Metadata) : option string :=
  List.find (λ field, collides field others old new) (unique_indexes c).

(** *** Reads *)

Definition find_first (f : Filter) (l : list Metadata)
  : option (nat * Metadata) :=
  list_find (λ d, matches f d = true) l.

Definition find_one (c : Coll) (f : Filter) (p : gmap string bool)
  (db : Database) : option Metadata :=
  (λ r, apply_projection p r.2) <$> find_first f (docs c db).

(** The rows a cursor produces. *)
Definition find (c : Coll) (f : Filter) (p : gmap string bool)
  (db : Database) : list Metadata :=
  apply_projection p <$> filter (λ d, matches f d = true) (docs c db).

Definition count_documents (c : Coll) (f : Filter) (db : Database) : Z :=
  Z.of_nat (length (filter (λ d, matches f d = true) (docs c db))).

(** *** Writes *)

Definition insert_one (c : Coll) (doc : Metadata) (db : Database)
  : Database * Result value :=
  let oid := default (VObjectId (next_id db)) (doc !! "_id") in
  let doc' := <["_id" := oid]> doc in
  match duplicate_key c (docs c db) None doc' with
  | Some ix => (db, Raise (DuplicateKeyError ix))
  | None =>
      let db' := set_docs c (docs c db ++ [doc']) db in
      (mkDatabase (files db') (collections db') (snapshots db')
         (next_id db + 1),
       Ok oid)                                 (* [inserted_id] *)
  end.

(** [$addToSet]: append the values the array does not hold yet. *)
Definition add_distinct (l vs : list value) : list value :=
  fold_left (λ acc v, if bool_decide (v ∈ acc) then acc else acc ++ [v])
    vs l.

Definition operand_values (a : AddToSet) : list value :=
  match a with
  | Each vs => vs
  | Single v => [v]
  end.

Definition add_to_set (old : option value) (a : option AddToSet)
  : option value :=
  match old, a with
  | Some (VList l), Some a => Some (VList (add_distinct l (operand_values a)))
  | None, Some a => Some (VList (add_distinct [] (operand_values a)))
  | old, _ => old
  end.

Definition is_array (v : value) : bool :=
  match v with VList _ => true | _ => false end.

Definition non_array_at (d : Metadata) (k : string) : bool :=
  match d !! k with
  | Some v => negb (is_array v)
  | None => false
  end.

Definition apply_update (u : Update) (d : Metadata) : Result Metadata :=
  if bool_decide (map_Exists (λ k _, non_array_at d k = true) (u_addToSet u))
  then Raise (WriteError "Cannot apply $addToSet to non-array field")
  else if bool_decide (dom (u_addToSet u) ∩ dom (u_set u) ≠ ∅)
  then Raise (WriteError "Updating the path would create a conflict")
  else Ok (u_set u ∪ merge add_to_set d (u_addToSet u)).

Definition write_at (c : Coll) (i : nat) (old new : Metadata)
  (db : Database) : Database * Result UpdateResult :=
  if bool_decide (new !! "_id" ≠ old !! "_id") then
    (db, Raise (WriteError "the (immutable) field '_id' was altered"))
  else
    match duplicate_key c (delete i (docs c db)) (Some old) new with
    | Some ix => (db, Raise (DuplicateKeyError ix))
    | None =>
        (set_docs c (<[i := new]> (docs c db)) db,
         Ok (mkUpdateResult 1
               (Some (if bool_decide (new = old) then 0 else 1))))
    end.

Definition update_one (c : Coll) (f : Filter) (u : Update) (db : Database)
  : Database * Result UpdateResult :=
  match find_first f (docs c db) with
  | None => (db, Ok (mkUpdateResult 0 (Some 0)))
  | Some (i, old) =>
      match apply_update u old with
      | Raise e => (db, Raise e)
      | Ok new => write_at c i old new db
      end
  end.

Definition replace_one (c : Coll) (f : Filter) (doc : Metadata)
  (db : Database) : Database * Result UpdateResult :=
  match find_first f (docs c db) with
  | None => (db, Ok (mkUpdateResult 0 (Some 0)))
  | Some (i, old) =>
      let new := match doc !! "_id", old !! "_id" with
                 | None, Some oid => <["_id" := oid]> doc
                 | _, _ => doc
                 end in
      write_at c i old new db
  end.

(** [deleted_count] *)
Definition delete_one (c : Coll) (f : Filter) (db : Database)
  : Database * Result Z :=
  match find_first f (docs c db) with
  | None => (db, Ok 0)
  | Some (i, _) => (set_docs c (delete i (docs c db)) db, Ok 1)
  end.

End store.
End Store.

(** ** The handler monad: store state and exceptions *)

Definition M (A : Type) : Type := Database → Database * Result A.

Global Instance M_ret : MRet M := λ A a db, (db, Ok a).

Global Instance M_bind : MBind M := λ A B f m db,
  match m db with
  | (db', Ok a) => f a db'
  | (db', Raise e) => (db', Raise e)
  end.

Definition raise {A} (e : Exn) : M A := λ db, (db, Raise e).

Definition lift_result {A} (r : Result A) : M A := λ db, (db, r).

Definition get_db : M Database := λ db, (db, Ok db).

(** [d[k]] *)
Definition getitem (d : Metadata) (k : string) : M value :=
  match d !! k with
  | Some v => mret v
  | None => raise (KeyError k)
  end.

(** A value interpolated into an f-string. *)
Definition format_value (E : Env) (v : value) : string :=
  match v with
  | VStr s => s
  | _ => py_str E v
  end.

(** The query document a filter stands for. *)
Definition filter_value (f : Filter) : value :=
  match f with
  | FAll => VObj []
  | FEq k v => VObj [(k, v)]
  | FElemMatch k e => VObj [(k, VObj [("$elemMatch", e)])]
  | FIn k vs => VObj [(k, VObj [("$in", VList vs)])]
  | FQuery q => q
  end.

(** Python truthiness of a value. *)
Definition value_truthy (v : value) : bool :=
  match v with
  | VNull => false
  | VBool b => b
  | VInt z => negb (z =? 0)
  | VStr s => negb (bool_decide (s = ""))
  | VObjectId _ => true
  | VList l => negb (bool_decide (l = []))
  | VObj fs => negb (bool_decide (fs = []))
  end.

(** ** [mongo.py]: the [Mongo] class *)

Module Mongo.

(** The [keys] argument of the [find_*] methods:
    [Optional[Union[List[str], AllKeys]]].  [KOther] stands for a value of
    any other type, which the annotations exclude but the code tests for;
    it records whether the value is truthy. *)
Inductive Keys : Type :=
| KNone
| KList (ks : list string)
| KAllKeys
| KOther (truthy : bool).

(** Python's [not keys]. *)
Definition keys_falsy (keys : Keys) : bool :=
  match keys with
  | KNone => true
  | KList ks => bool_decide (ks = [])
  | KAllKeys => false
  | KOther t => negb t
  end.

(** [projection.update(d)]: the entries of [d] win. *)
Definition dict_update {V} (d projection : gmap string V) : gmap string V :=
  d ∪ projection.

(** [{k: True for k in keys}] *)
Definition keys_dict (ks : list string) : gmap string bool :=
  list_to_map ((λ k, (k, true)) <$> ks).

Definition _get_projection (keys : Keys) (default : option (gmap string bool))
  : Result (gmap string bool) :=
  let projection : gmap string bool := {[ "_id" := false ]} in
  if keys_falsy keys then
    match default with
    | Some d => if bool_decide (d = ∅) then Ok projection
                else Ok (dict_update d projection)
    | None => Ok projection
    end
  else
    match keys with
    | KAllKeys => Ok projection
    | KList ks => Ok (dict_update (keys_dict ks) projection)
    | _ => Raise (TypeError "`keys` argument is not NoneType, list, or AllKeys")
    end.

(** Python truthiness of [end] ([None] and [0] are falsy). *)
Definition end_truthy (end_ : option Z) : bool :=
  match end_ with
  | Some e => negb (e =? 0)
  | None => false
  end.

(** The loop of [_limit_results] over the rows still to come from the
    cursor, with the counter [i]; the result is the sequence of rows
    yielded. *)
Fixpoint limit_loop {A} (end_ : option Z) (start i : Z) (cursor : list A)
  : list A :=
  match cursor with
  | [] => []
  | row :: cursor' =>
      if i <? start then
        limit_loop end_ start i cursor'            (* continue *)
      else
        row ::                                      (* yield row *)
        (if end_truthy end_ && (default 0 end_ <=? i) then
           []                                       (* return *)
         else limit_loop end_ start (i + 1) cursor')
  end.

Definition _limit_results {A} (cursor : list A) (limit : option Z)
  (start : Z) : list A :=
  let end_ := match limit with
              | Some l => Some (start + l)
              | None => None
              end in
  limit_loop end_ start 0 cursor.

Section methods.
Context (E : Env).

Definition find_files (query : Filter) (keys : Keys) (limit : option Z)
  (start : Z) : M (list Metadata) :=
  projection ← lift_result
    (_get_projection keys (Some {[ "uuid" := true; "logical_name" := true ]}));
  db ← get_db;
  let cursor := Store.find E Files query projection db in
  mret (_limit_results cursor limit start).

Definition count_files (query : Filter) : M Z :=
  db ← get_db;
  mret (Store.count_documents E Files query db).

Definition create_file (metadata : Metadata) : M value :=
  inserted_id ← Store.insert_one Files metadata;
  if negb (value_truthy inserted_id) then
    raise (Exception "did not insert new file")
  else getitem metadata "uuid".

Definition get_file (filters : Filter) : M (option Metadata) :=
  if Store.well_formed filters then
    db ← get_db;
    mret (Store.find_one E Files filters {[ "_id" := false ]} db)
  else raise (OperationFailure "$elemMatch needs an Object").

(** The check on [result.modified_count] that follows every update. *)
Definition check_modified (result : UpdateResult) (uuid : value) : M () :=
  match modified_count result with
  | None => mret ()                            (* only a warning is logged *)
  | Some n =>
      if bool_decide (n ≠ 1) then
        raise (Exception ("updated " +:+ pretty n +:+ " files with id "
                          +:+ format_value E uuid))
      else mret ()
  end.

Definition update_file (uuid : value) (metadata : Metadata) : M () :=
  result ← Store.update_one E Files (FEq "uuid" uuid) (mkUpdate ∅ metadata);
  check_modified result uuid.

Definition replace_file (metadata : Metadata) : M () :=
  uuid ← getitem metadata "uuid";
  result ← Store.replace_one E Files (FEq "uuid" uuid) metadata;
  check_modified result uuid.

Definition delete_file (filters : Filter) : M () :=
  deleted_count ← Store.delete_one E Files filters;
  if bool_decide (deleted_count ≠ 1) then
    raise (Exception ("deleted " +:+ pretty deleted_count
                      +:+ " files with filter "
                      +:+ py_str E (filter_value filters)))
  else mret ().

Definition find_collections (keys : Keys) (limit : option Z) (start : Z)
  : M (list Metadata) :=
  projection ← lift_result (_get_projection keys None);
  db ← get_db;
  let cursor := Store.find E Collections FAll projection db in
  mret (_limit_results cursor limit start).

Definition create_collection (metadata : Metadata) : M value :=
  inserted_id ← Store.insert_one Collections metadata;
  if negb (value_truthy inserted_id) then
    raise (Exception "did not insert new collection")
  else getitem metadata "uuid".

Definition get_collection (filters : Filter) : M (option Metadata) :=
  db ← get_db;
  mret (Store.find_one E Collections filters {[ "_id" := false ]} db).

Definition find_snapshots (query : Filter) (keys : Keys)
  (limit : option Z) (start : Z) : M (list Metadata) :=
  projection ← lift_result (_get_projection keys None);
  db ← get_db;
  let cursor := Store.find E Snapshots query projection db in
  mret (_limit_results cursor limit start).

Definition create_snapshot (metadata : Metadata) : M value :=
  inserted_id ← Store.insert_one Snapshots metadata;
  if negb (value_truthy inserted_id) then
    raise (Exception "did not insert new snapshot")
  else getitem metadata "uuid".

Definition get_snapshot (filters : Filter) : M (option Metadata) :=
  db ← get_db;
  mret (Store.find_one E Snapshots filters {[ "_id" := false ]} db).

(** The [$addToSet] operand built for one entry of [metadata]. *)
Definition add_operand (v : value) : AddToSet :=
  match v with
  | VList l => Each l
  | _ => Single v
  end.

Definition append_distinct_elements_to_file (utcnow : string)
  (uuid : value) (metadata : Metadata) : M () :=
  let update_query :=
    mkUpdate (add_operand <$> metadata)
             {[ "meta_modify_date" := VStr utcnow ]} in
  result ← Store.update_one E Files (FEq "uuid" uuid) update_query;
  check_modified result uuid.

End methods.

End Mongo.

(** ** [server.py]: the API handlers *)

Module Server.

(** [os.path.join(a, b)] *)
Definition starts_with_slash (s : string) : bool :=
  match s with
  | String c _ => bool_decide (c = "/"%char)
  | EmptyString => false
  end.

Fixpoint ends_with_slash (s : string) : bool :=
  match s with
  | EmptyString => false
  | String c EmptyString => bool_decide (c = "/"%char)
  | String _ s' => ends_with_slash s'
  end.

Definition path_join (a b : string) : string :=
  if starts_with_slash b then b
  else if bool_decide (a = "") || ends_with_slash a then a +:+ b
  else a +:+ "/" +:+ b.

Definition set_last_modification_date (utcnow : string) (metadata : Metadata)
  : Metadata :=
  <["meta_modify_date" := VStr utcnow]> metadata.

(** [self.send_error(status, **kwargs)]: [write_error] writes the keyword
    arguments as the body. *)
Definition send_error (status_code : Z) (kwargs : Metadata) : Response :=
  mkResponse status_code kwargs.

(** [{'self': {'href': s}, 'parent': {'href': p}}] *)
Definition links (self parent : string) : value :=
  VObj [("self", VObj [("href", VStr self)]);
        ("parent", VObj [("href", VStr parent)])].

(** A document as a JSON value, when it is written inside a list. *)
Definition doc_value (d : Metadata) : value := VObj (map_to_list d).

(** [if doc:] holds for a document that is neither [None] nor empty. *)
Definition truthy (doc : option Metadata) : option Metadata :=
  match doc with
  | Some d => if bool_decide (d = ∅) then None else Some d
  | None => None
  end.

Definition as_str (v : value) : M string :=
  match v with
  | VStr s => mret s
  | _ => raise (TypeError "expected str, bytes or os.PathLike object")
  end.

(** [types.Metadata] types [locations] as a list; any other shape raises. *)
Definition as_list (v : value) : M (list value) :=
  match v with
  | VList l => mret l
  | _ => raise (TypeError "expected a list")
  end.

(** [loc['path']] *)
Definition loc_path (loc : value) : M value :=
  match loc with
  | VObj fs =>
      match List.find (λ kv, bool_decide (kv.1 = "path")) fs with
      | Some kv => mret kv.2
      | None => raise (KeyError "path")
      end
  | _ => raise (TypeError "indices must be integers")
  end.

(** The keyword arguments that [urlargparse] and [argbuilder] build from
    the query string of a listing request. *)
Record Kwargs : Type := mkKwargs {
  kw_query : Filter;
  kw_keys : Mongo.Keys;
  kw_limit : option Z;
  kw_start : Z;
}.

Section handlers.
Context (E : Env).

Definition files_url : string := path_join (base_url E) "files".
Definition collections_url : string := path_join (base_url E) "collections".
Definition snapshots_url : string := path_join (base_url E) "snapshots".

(** [str(e)] *)
Definition exn_str (e : Exn) : string :=
  match e with
  | KeyError k => "'" +:+ k +:+ "'"
  | TypeError m | DuplicateKeyError m | ValueError m | WriteError m
  | OperationFailure m | Exception m => m
  end.

(** The decorator [catch_error], for a method of the handler class
    [class_name].  The method is run to its end: the exception the wrapper
    handles is the one the method's body raises. *)
Definition catch_error (class_name : string) (method : M Response)
  : M Response :=
  λ db,
    match method db with
    | (db', Ok r) => (db', Ok r)
    | (db', Raise e) =>
        let kwargs : Metadata :=
          {[ "message" := VStr ("Internal error in " +:+ class_name) ]} in
        let kwargs :=
          if debug E then <["exception" := VStr (exn_str e)]> kwargs
          else kwargs in
        (db', Ok (send_error 500 kwargs))
    end.

(** *** [FilesHandler] *)

Definition FilesHandler_get (kwargs : option Kwargs) : M Response :=
  match kwargs with
  | None => mret (send_error 400
                    {[ "reason" := VStr "Invalid query parameter(s)" ]})
  | Some kw =>
      files ← Mongo.find_files E (kw_query kw) (kw_keys kw) (kw_limit kw)
                (kw_start kw);
      mret (mkResponse 200
              {[ "_links" := links files_url (base_url E);
                 "files" := VList (doc_value <$> files) ]})
  end.

Definition FilesHandler_post (utcnow uuid1 : string)
  (request_body : Metadata) : M Response :=
  let metadata := request_body in
  let metadata :=
    if bool_decide (metadata !! "uuid" = None)
    then <["uuid" := VStr uuid1]> metadata else metadata in
  match validate_metadata_creation E metadata with
  | Some err => mret err
  | None =>
  let metadata := set_last_modification_date utcnow metadata in
  db ← get_db;
  match contains_existing_filepaths E db metadata None with
  | Some err => mret err
  | None =>
  md_uuid ← getitem metadata "uuid";
  db_file ← Mongo.get_file E (FEq "uuid" md_uuid);
  uuid ←
    match truthy db_file with
    | Some db_file =>
        db_checksum ← getitem db_file "checksum";
        md_checksum ← getitem metadata "checksum";
        if bool_decide (db_checksum ≠ md_checksum) then
          db_uuid ← getitem db_file "uuid" ≫= as_str;
          mret (inl (send_error 409
            {[ "reason" :=
                 VStr "Conflict with existing file (uuid already exists)";
               "file" := VStr (path_join files_url db_uuid) ]}))
        else
          md_locations ← getitem metadata "locations" ≫= as_list;
          db_locations ← getitem db_file "locations" ≫= as_list;
          if existsb (λ f, bool_decide (f ∈ db_locations)) md_locations then
            db_uuid ← getitem db_file "uuid" ≫= as_str;
            mret (inl (send_error 409
              {[ "reason" := VStr "Replica has already been added";
                 "file" := VStr (path_join files_url db_uuid) ]}))
          else
            let db_locations := db_locations ++ md_locations in
            db_uuid ← getitem db_file "uuid";
            Mongo.update_file E db_uuid
              {[ "locations" := VList db_locations ]};;
            mret (inr (200, db_uuid))
    | None =>
        uuid ← Mongo.create_file metadata;
        mret (inr (201, uuid))
    end;
  match uuid with
  | inl err => mret err
  | inr (code, uuid) =>
      uuid ← as_str uuid;
      mret (mkResponse code
              {[ "_links" := links files_url (base_url E);
                 "file" := VStr (path_join files_url uuid) ]})
  end
  end
  end.

(** *** [FilesCountHandler] *)

Definition FilesCountHandler_get (kwargs : option Filter) : M Response :=
  match kwargs with
  | None => mret (send_error 400
                    {[ "reason" := VStr "Invalid query parameter(s)" ]})
  | Some query =>
      files ← Mongo.count_files E query;
      mret (mkResponse 200
              {[ "_links" := links files_url (base_url E);
                 "files" := VInt files ]})
  end.

(** *** [SingleFileHandler] *)

Definition SingleFileHandler_get (uuid : string) : M Response :=
  db_file ← Mongo.get_file E (FEq "uuid" (VStr uuid));
  match truthy db_file with
  | Some db_file =>
      mret (mkResponse 200
              (<["_links" := links (path_join files_url uuid) files_url]>
                 db_file))
  | None => mret (send_error 404 {[ "reason" := VStr "File uuid not found" ]})
  end.

Definition SingleFileHandler_delete (uuid : string) : M Response :=
  λ db,
    match Mongo.delete_file E (FEq "uuid" (VStr uuid)) db with
    | (db', Ok _) => (db', Ok (mkResponse 204 ∅))
    | (db', Raise _) =>
        (db', Ok (send_error 404 {[ "reason" := VStr "File uuid not found" ]}))
    end.

Definition SingleFileHandler_patch (utcnow : string) (uuid : string)
  (request_body : Metadata) : M Response :=
  let metadata := request_body in
  db_file ← Mongo.get_file E (FEq "uuid" (VStr uuid));
  match truthy db_file with
  | None => mret (send_error 404 {[ "reason" := VStr "File uuid not found" ]})
  | Some db_file =>
  match has_forbidden_attributes_modification E metadata db_file with
  | Some err => mret err
  | None =>
  db ← get_db;
  match contains_existing_filepaths E db metadata (Some uuid) with
  | Some err => mret err
  | None =>
  let metadata := set_last_modification_date utcnow metadata in
  let db_file := Mongo.dict_update metadata db_file in
  match validate_metadata_modification E db_file with
  | Some err => mret err
  | None =>
  Mongo.update_file E (VStr uuid) metadata;;
  mret (mkResponse 200
          (<["_links" := links (path_join files_url uuid) files_url]>
             db_file))
  end
  end
  end
  end.

Definition SingleFileHandler_put (utcnow : string) (uuid : string)
  (request_body : Metadata) : M Response :=
  let metadata := request_body in
  db_file ← Mongo.get_file E (FEq "uuid" (VStr uuid));
  match truthy db_file with
  | None => mret (send_error 404 {[ "reason" := VStr "File uuid not found" ]})
  | Some db_file =>
  match has_forbidden_attributes_modification E metadata db_file with
  | Some err => mret err
  | None =>
  db ← get_db;
  match contains_existing_filepaths E db metadata (Some uuid) with
  | Some err => mret err
  | None =>
  let metadata := <["uuid" := VStr uuid]> metadata in
  let metadata := set_last_modification_date utcnow metadata in
  match validate_metadata_modification E metadata with
  | Some err => mret err
  | None =>
  Mongo.replace_file E metadata;;
  mret (mkResponse 200
          (<["_links" := links (path_join files_url uuid) files_url]>
             metadata))
  end
  end
  end
  end.

(** *** [SingleFileLocationsHandler] *)

(** [type(locations)], as the error message prints it. *)
Definition type_name (v : value) : string :=
  match v with
  | VNull => "<class 'NoneType'>"
  | VBool _ => "<class 'bool'>"
  | VInt _ => "<class 'int'>"
  | VStr _ => "<class 'str'>"
  | VObjectId _ => "<class 'bson.objectid.ObjectId'>"
  | VList _ => "<class 'list'>"
  | VObj _ => "<class 'dict'>"
  end.

(** The loop over the locations provided: either the conflict response of
    the first location that belongs to another file, or the vetted list
    of new locations. *)
Fixpoint scan_locations (uuid : string) (locations new_locations : list value)
  : M (Response + list value) :=
  match locations with
  | [] => mret (inr new_locations)
  | loc :: locations' =>
      check ← Mongo.get_file E (FElemMatch "locations" loc);
      match truthy check with
      | Some check =>
          check_uuid ← getitem check "uuid";
          if bool_decide (check_uuid ≠ VStr uuid) then
            path ← loc_path loc;
            file ← as_str check_uuid;
            mret (inl (send_error 409
              {[ "reason" :=
                   VStr ("Conflict with existing file (location already exists `"
                         +:+ format_value E path +:+ "`)");
                 "file" := VStr (path_join files_url file);
                 "location" := loc ]}))
          else scan_locations uuid locations' new_locations
      | None => scan_locations uuid locations' (new_locations ++ [loc])
      end
  end.

Definition SingleFileLocationsHandler_post (utcnow : string) (uuid : string)
  (request_body : Metadata) : M Response :=
  db_file ← Mongo.get_file E (FEq "uuid" (VStr uuid));
  match truthy db_file with
  | None => mret (send_error 404 {[ "reason" := VStr "File uuid not found" ]})
  | Some db_file =>
  let metadata := request_body in
  match metadata !! "locations" with
  | None | Some VNull =>
      mret (send_error 400
              {[ "reason" := VStr "POST body requires 'locations' field" ]})
  | Some (VList locations) =>
      scanned ← scan_locations uuid locations [];
      match scanned with
      | inl err => mret err
      | inr new_locations =>
          db_file ←
            (if negb (bool_decide (new_locations = [])) then
               Mongo.append_distinct_elements_to_file E utcnow (VStr uuid)
                 {[ "locations" := VList new_locations ]};;
               Mongo.get_file E (FEq "uuid" (VStr uuid))
             else mret (Some db_file));
          match db_file with
          | None => raise (TypeError
              "'NoneType' object does not support item assignment")
          | Some db_file =>
              mret (mkResponse 200
                (<["_links" := links (path_join files_url uuid) files_url]>
                   db_file))
          end
      end
  | Some locations =>
      mret (send_error 400
              {[ "reason" := VStr ("Field 'locations' must be a list (not `"
                                   +:+ type_name locations +:+ "`)") ]})
  end
  end.

(** *** Collections *)

(** The lookup that opens every single-collection handler: by uuid, then
    by name. *)
Definition lookup_collection (uid : string) : M (option Metadata) :=
  ret ← Mongo.get_collection E (FEq "uuid" (VStr uid));
  match truthy ret with
  | Some ret => mret (Some ret)
  | None =>
      ret ← Mongo.get_collection E (FEq "collection_name" (VStr uid));
      mret (truthy ret)
  end.

(** [json_decode(ret['query'])]; [None] when it raises. *)
Definition decode_query (ret : Metadata) : option value :=
  match ret !! "query" with
  | Some (VStr s) => json_decode E s
  | _ => None
  end.

Definition CollectionsHandler_get (kwargs : option Kwargs) : M Response :=
  match kwargs with
  | None => mret (send_error 400
                    {[ "reason" := VStr "Invalid query parameter(s)" ]})
  | Some kw =>
      collections ← Mongo.find_collections E (kw_keys kw) (kw_limit kw)
                      (kw_start kw);
      mret (mkResponse 200
              {[ "_links" := links collections_url (base_url E);
                 "collections" := VList (doc_value <$> collections) ]})
  end.

Definition CollectionsHandler_post (utcnow uuid1 : string)
  (request_body : Metadata) : M Response :=
  let metadata := request_body in
  match metadata ← build_files_query E metadata;
        query ← metadata !! "query";
        Some (<["query" := VStr (json_encode E query)]> metadata) with
  | None => mret (send_error 400
                    {[ "reason" := VStr "Invalid query parameter(s)" ]})
  | Some metadata =>
  if bool_decide (metadata !! "collection_name" = None) then
    mret (send_error 400 {[ "reason" := VStr "Missing collection_name" ]})
  else if bool_decide (metadata !! "owner" = None) then
    mret (send_error 400 {[ "reason" := VStr "Missing owner" ]})
  else
  let metadata :=
    if bool_decide (metadata !! "uuid" = None)
    then <["uuid" := VStr uuid1]> metadata else metadata in
  let metadata := set_last_modification_date utcnow metadata in
  let metadata := <["creation_date" := VStr utcnow]> metadata in
  md_uuid ← getitem metadata "uuid";
  ret ← Mongo.get_collection E (FEq "uuid" md_uuid);
  match truthy ret with
  | Some ret =>
      ret_uuid ← getitem ret "uuid" ≫= as_str;
      mret (send_error 409
        {[ "reason" :=
             VStr "Conflict with existing collection (uuid already exists)";
           "file" := VStr (path_join collections_url ret_uuid) ]})
  | None =>
      uuid ← Mongo.create_collection metadata;
      uuid ← as_str uuid;
      mret (mkResponse 201
              {[ "_links" := links collections_url (base_url E);
                 "collection" := VStr (path_join collections_url uuid) ]})
  end
  end.

Definition SingleCollectionHandler_get (uid : string) : M Response :=
  ret ← lookup_collection uid;
  match ret with
  | Some ret =>
      mret (mkResponse 200
        (<["_links" := links (path_join collections_url uid) collections_url]>
           ret))
  | None => mret (send_error 404 {[ "reason" := VStr "Collection not found" ]})
  end.

Definition SingleCollectionFilesHandler_get (uid : string)
  (kwargs : option Kwargs) : M Response :=
  ret ← lookup_collection uid;
  match ret with
  | Some ret =>
      match kw ← kwargs; query ← decode_query ret; Some (kw, query) with
      | None => mret (send_error 400
                        {[ "reason" := VStr "Invalid query parameter(s)" ]})
      | Some (kw, query) =>
          files ← Mongo.find_files E (FQuery query) (kw_keys kw)
                    (kw_limit kw) (kw_start kw);
          mret (mkResponse 200
            {[ "_links" :=
                 links (path_join (path_join collections_url uid) "files")
                       (path_join collections_url uid);
               "files" := VList (doc_value <$> files) ]})
      end
  | None => mret (send_error 404 {[ "reason" := VStr "Collection not found" ]})
  end.

(** *** Snapshots *)

Definition SingleCollectionSnapshotsHandler_get (uid : string)
  (kwargs : option Kwargs) : M Response :=
  ret ← lookup_collection uid;
  match ret with
  | None => mret (send_error 400 {[ "reason" := VStr "Cannot find collection" ]})
  | Some ret =>
      match kw ← kwargs; ret_uuid ← ret !! "uuid"; Some (kw, ret_uuid) with
      | None => mret (send_error 400
                        {[ "reason" := VStr "Invalid query parameter(s)" ]})
      | Some (kw, ret_uuid) =>
          snapshots ← Mongo.find_snapshots E (FEq "collection_id" ret_uuid)
                        (kw_keys kw) (kw_limit kw) (kw_start kw);
          mret (mkResponse 200
            {[ "_links" :=
                 links (path_join (path_join collections_url uid) "snapshots")
                       (path_join collections_url uid);
               "snapshots" := VList (doc_value <$> snapshots) ]})
      end
  end.

Definition SingleCollectionSnapshotsHandler_post (utcnow uuid1 : string)
  (uid : string) (request_body : option Metadata) : M Response :=
  ret ← lookup_collection uid;
  match ret with
  | None => mret (send_error 400 {[ "reason" := VStr "Cannot find collection" ]})
  | Some ret =>
  match decode_query ret with
  | None => raise (ValueError "json_decode")
  | Some query =>
  let metadata := default ∅ request_body in
  let metadata := <["collection_id" := VStr uid]> metadata in
  owner ← (if bool_decide (metadata !! "owner" = None)
           then getitem ret "owner" else getitem metadata "owner");
  let metadata := <["owner" := owner]> metadata in
  let metadata :=
    if bool_decide (metadata !! "uuid" = None)
    then <["uuid" := VStr uuid1]> metadata else metadata in
  let metadata := set_last_modification_date utcnow metadata in
  let metadata := <["creation_date" := VStr utcnow]> metadata in
  let metadata := delete "meta_modify_date" metadata in
  md_uuid ← getitem metadata "uuid";
  snapshot ← Mongo.get_snapshot E (FEq "uuid" md_uuid);
  match truthy snapshot with
  | Some _ =>
      mret (send_error 409
        {[ "reason" :=
             VStr "Conflict with existing snapshot (uuid already exists)" ]})
  | None =>
      files ← Mongo.find_files E (FQuery query) (Mongo.KList ["uuid"]) None 0;
      file_ids ← mapM (λ row, getitem row "uuid") files;
      let metadata := <["files" := VList file_ids]> metadata in
      uuid ← Mongo.create_snapshot metadata;
      uuid ← as_str uuid;
      mret (mkResponse 201
        {[ "_links" :=
             links (path_join (path_join collections_url uid) "snapshots")
                   (path_join collections_url uid);
           "snapshot" := VStr (path_join snapshots_url uuid) ]})
  end
  end
  end.

Definition SingleSnapshotHandler_get (uid : string) : M Response :=
  ret ← Mongo.get_snapshot E (FEq "uuid" (VStr uid));
  match truthy ret with
  | Some ret =>
      mret (mkResponse 200
        (<["_links" := links (path_join snapshots_url uid) collections_url]>
           ret))
  | None => mret (send_error 404 {[ "reason" := VStr "Snapshot not found" ]})
  end.

Definition SingleSnapshotFilesHandler_get (uid : string)
  (kwargs : option Kwargs) : M Response :=
  ret ← Mongo.get_snapshot E (FEq "uuid" (VStr uid));
  match truthy ret with
  | Some ret =>
      match kw ← kwargs; files ← ret !! "files"; Some (kw, files) with
      | None => mret (send_error 400
                        {[ "reason" := VStr "Invalid query parameter(s)" ]})
      | Some (kw, VList file_ids) =>
          files ← Mongo.find_files E (FIn "uuid" file_ids) (kw_keys kw)
                    (kw_limit kw) (kw_start kw);
          mret (mkResponse 200
            {[ "_links" :=
                 links (path_join (path_join snapshots_url uid) "files")
                       (path_join snapshots_url uid);
               "files" := VList (doc_value <$> files) ]})
      | Some _ => raise (OperationFailure "$in needs an array")
      end
  | None => mret (send_error 404 {[ "reason" := VStr "Snapshot not found" ]})
  end.

(** *** The API: every request the core serves *)

Inductive Request : Type :=
| GET_files (kwargs : option Kwargs)
| POST_files (utcnow uuid1 : string) (request_body : Metadata)
| GET_files_count (kwargs : option Filter)
| GET_file (uuid : string)
| DELETE_file (uuid : string)
| PATCH_file (utcnow : string) (uuid : string) (request_body : Metadata)
| PUT_file (utcnow : string) (uuid : string) (request_body : Metadata)
| POST_file_locations (utcnow : string) (uuid : string)
    (request_body : Metadata)
| GET_collections (kwargs : option Kwargs)
| POST_collections (utcnow uuid1 : string) (request_body : Metadata)
| GET_collection (uid : string)
| GET_collection_files (uid : string) (kwargs : option Kwargs)
| GET_collection_snapshots (uid : string) (kwargs : option Kwargs)
| POST_collection_snapshots (utcnow uuid1 : string) (uid : string)
    (request_body : option Metadata)
| GET_snapshot (uid : string)
| GET_snapshot_files (uid : string) (kwargs : option Kwargs).

(** The routing table of [Server.__init__]; every method is wrapped in
    [catch_error].  Token validation ([validate_auth]) happens before the
    method and is not part of the engine; requests here are those it let
    through. *)
Definition handle (r : Request) : M Response :=
  match r with
  | GET_files kw => catch_error "FilesHandler" (FilesHandler_get kw)
  | POST_files t u b => catch_error "FilesHandler" (FilesHandler_post t u b)
  | GET_files_count kw =>
      catch_error "FilesCountHandler" (FilesCountHandler_get kw)
  | GET_file u => catch_error "SingleFileHandler" (SingleFileHandler_get u)
  | DELETE_file u =>
      catch_error "SingleFileHandler" (SingleFileHandler_delete u)
  | PATCH_file t u b =>
      catch_error "SingleFileHandler" (SingleFileHandler_patch t u b)
  | PUT_file t u b =>
      catch_error "SingleFileHandler" (SingleFileHandler_put t u b)
  | POST_file_locations t u b =>
      catch_error "SingleFileLocationsHandler"
        (SingleFileLocationsHandler_post t u b)
  | GET_collections kw =>
      catch_error "CollectionsHandler" (CollectionsHandler_get kw)
  | POST_collections t u b =>
      catch_error "CollectionsHandler" (CollectionsHandler_post t u b)
  | GET_collection u =>
      catch_error "SingleCollectionHandler" (SingleCollectionHandler_get u)
  | GET_collection_files u kw =>
      catch_error "SingleCollectionFilesHandler"
        (SingleCollectionFilesHandler_get u kw)
  | GET_collection_snapshots u kw =>
      catch_error "SingleCollectionSnapshotsHandler"
        (SingleCollectionSnapshotsHandler_get u kw)
  | POST_collection_snapshots t u1 u b =>
      catch_error "SingleCollectionSnapshotsHandler"
        (SingleCollectionSnapshotsHandler_post t u1 u b)
  | GET_snapshot u =>
      catch_error "SingleSnapshotHandler" (SingleSnapshotHandler_get u)
  | GET_snapshot_files u kw =>
      catch_error "SingleSnapshotFilesHandler"
        (SingleSnapshotFilesHandler_get u kw)
  end.

(** A sequence of requests served one after the other. *)
Fixpoint serve (rs : list Request) (db : Database)
  : Database * list Response :=
  match rs with
  | [] => (db, [])
  | r :: rs' =>
      match handle r db with
      | (db', Ok resp) =>
          let '(db'', resps) := serve rs' db' in (db'', resp :: resps)
      | (db', Raise _) => serve rs' db'
      end
  end.

End handlers.
End Server.

(** ** [server.py]: what wraps the handler methods *)

(** [s.split(' ', 1)]: the text before the first space and, when there is
    a space, the text after it. *)
Fixpoint split_once (s : string) : string * option string :=
  match s with
  | EmptyString => (EmptyString, None)
  | String c s' =>
      if bool_decide (c = " "%char) then (EmptyString, Some s')
      else let '(a, b) := split_once s' in (String c a, b)
  end.

(** [s.lower()], on the letters A to Z. *)
Definition lower_char (c : ascii) : ascii :=
  let n := nat_of_ascii c in
  if (65 <=? n)%nat && (n <=? 90)%nat then ascii_of_nat (n + 32) else c.

Fixpoint lower (s : string) : string :=
  match s with
  | EmptyString => EmptyString
  | String c s' => String (lower_char c) (lower s')
  end.

(** The decorator [validate_auth].  [auth] is [self.auth]: absent, or the
    token validator, which answers with the exception it raises, if any.
    [headers] are the request headers. *)
Definition validate_auth (E : Env) (auth : option (string → option Exn))
  (headers : gmap string string) (method : M Response) : M Response :=
  match auth with
  | None => method                              (* skip auth if not present *)
  | Some validate =>
      let checked : option Exn :=
        match headers !! "Authorization" with
        | None => Some (KeyError "Authorization")
        | Some header =>
            let auth_key := split_once header in
            if negb (bool_decide (lower auth_key.1 = "bearer")) then
              Some (Exception "not a bearer token")
            else
              match auth_key.2 with
              | None => Some (Exception "list index out of range")
              | Some token => validate token
              end
        end in
      match checked with
      | Some e =>
          let kwargs : Metadata := {[ "message" := VStr "Authorization error" ]} in
          let kwargs :=
            if debug E then <["exception" := VStr (Server.exn_str e)]> kwargs
            else kwargs in
          mret (Server.send_error 403 kwargs)
      | None => method
      end
  end.

(** The requests [validate_auth] lets through: the [Authorization] header
    reads [<scheme> <token>], the scheme is [bearer] in any case of the
    letters, and the validator accepts the token. *)
Definition authorized (validate : string → option Exn)
  (headers : gmap string string) : Prop :=
  ∃ scheme token,
    headers !! "Authorization" = Some (scheme +:+ " " +:+ token)
    ∧ lower scheme = "bearer"
    ∧ validate token = None.

Module APIHandler.

(** The rate limiting state of a handler. *)
Record RateLimit : Type := mkRateLimit {
  rate_limit : Z;
  rate_limit_data : gmap string Z;
}.

(** [initialize]: one is subtracted to test before the current connection
    is added. *)
Definition initialize (rate_limit : Z) : RateLimit :=
  mkRateLimit (rate_limit - 1) ∅.

(** [prepare], for a request from the address [ip]: the new state and the
    error sent, if any. *)
Definition prepare (ip : string) (self : RateLimit)
  : RateLimit * option Response :=
  match rate_limit_data self !! ip with
  | Some n =>
      if rate_limit self <? n then
        (self, Some (Server.send_error 429
                       {[ "reason" := VStr "Rate limit exceeded for IP address" ]}))
      else
        (mkRateLimit (rate_limit self) (<[ip := n + 1]> (rate_limit_data self)),
         None)
  | None =>
      (mkRateLimit (rate_limit self) (<[ip := 1]> (rate_limit_data self)), None)
  end.

Definition on_finish (ip : string) (self : RateLimit) : Result RateLimit :=
  match rate_limit_data self !! ip with
  | None => Raise (KeyError ip)
  | Some n =>
      let n' := n - 1 in
      if n' <=? 0 then
        Ok (mkRateLimit (rate_limit self) (delete ip (rate_limit_data self)))
      else
        Ok (mkRateLimit (rate_limit self) (<[ip := n']> (rate_limit_data self)))
  end.


End APIHandler.

(** ** Invariants of computations *)

(** A computation keeps a property of the store. *)
Definition preserves {A} (I : Database → Prop) (m : M A) : Prop :=
  ∀ db db' r, m db = (db', r) → I db → I db'.

(** Every result a computation returns satisfies a property. *)
Definition returns {A} (Q : A → Prop) (m : M A) : Prop :=
  ∀ db db' a, m db = (db', Ok a) → Q a.

(** No two documents of a collection share an index key of the field. *)
Definition unique_at (field : string) (l : list Metadata) : Prop :=
  ∀ i j d1 d2 key,
    l !! i = Some d1 → l !! j = Some d2 →
    key ∈ Store.index_keys field d1 → key ∈ Store.index_keys field d2 →
    i = j.

(** The unique indexes of [Mongo.create_indexes] hold. *)
Definition indexes_hold (db : Database) : Prop :=
  ∀ c field, field ∈ Store.unique_indexes c →
             unique_at field (Store.docs c db).

(** The requests that only read. *)
Definition is_get (request : Server.Request) : bool :=
  match request with
  | Server.GET_files _ | Server.GET_files_count _ | Server.GET_file _
  | Server.GET_collections _ | Server.GET_collection _
  | Server.GET_collection_files _ _ | Server.GET_collection_snapshots _ _
  | Server.GET_snapshot _ | Server.GET_snapshot_files _ _ => true
  | _ => false
  end.

(** ** Reference notions and example data *)

(** [documents[s : min(s + l, N)]], and [documents[s : N]] without a limit. *)
Definition py_slice {A} (documents : list A) (s : Z) (l : option Z) : list A :=
  match l with
  | Some l => take (Z.to_nat l) (drop (Z.to_nat s) documents)
  | None => drop (Z.to_nat s) documents
  end.




(** A candidate location is a JSON object with a [path]. *)
Definition has_path (loc : value) (path : value) : Prop :=
  ∃ fs kv, loc = VObj fs
           ∧ List.find (λ kv, bool_decide (kv.1 = "path")) fs = Some kv
           ∧ path = kv.2.




(** A computation never changes or removes a snapshot document: the
    snapshots it leaves start with the snapshots it found. *)
Definition keeps_snapshots {A} (m : M A) : Prop :=
  ∀ db db' r, m db = (db', r) → snapshots db `prefix_of` snapshots db'.

(** A deployment in which every external check passes, queries are
    conjunctions of field equalities, and the only query in use is the
    empty one. *)
Definition demo_env : Env := {|
  base_url := "/api";
  debug := false;
  eval_query := λ q d,
    match q with
    | VObj fs => forallb (λ kv, bool_decide (d !! kv.1 = Some kv.2)) fs
    | _ => false
    end;
  validate_metadata_creation := λ _, None;
  validate_metadata_modification := λ _, None;
  has_forbidden_attributes_modification := λ _ _, None;
  contains_existing_filepaths := λ _ _ _, None;
  build_files_query := λ md, Some md;
  json_encode := λ _, "{}";
  json_decode := λ s, if bool_decide (s = "{}") then Some (VObj []) else None;
  py_str := λ _, "?";
|}.

Definition location (site path : string) : value :=
  VObj [("site", VStr site); ("path", VStr path)].

(** A request body for a file. *)
Definition file_metadata (uuid logical_name sha512 : string)
  (locations : list value) : Metadata :=
  {[ "uuid" := VStr uuid; "logical_name" := VStr logical_name;
     "checksum" := VObj [("sha512", VStr sha512)];
     "locations" := VList locations ]}.

(** The same file as the store holds it. *)
Definition file_row (oid : Z) (uuid logical_name sha512 : string)
  (locations : list value) : Metadata :=
  <["_id" := VObjectId oid]> (file_metadata uuid logical_name sha512 locations).

(** A catalog with two files, [A] and [B], and one collection that
    matches every file. *)
Definition demo_db : Database :=
  mkDatabase
    [file_row 1 "A" "/data/a" "aa" [location "WIPAC" "/data/a"];
     file_row 2 "B" "/data/b" "bb" [location "WIPAC" "/data/b"]]
    [{[ "_id" := VObjectId 3; "uuid" := VStr "c1";
        "collection_name" := VStr "run2020"; "owner" := VStr "me";
        "query" := VStr "{}" ]}]
    []
    4.

(** * Properties *)

(** ** Pagination *)

Section pagination.
Context {A : Type}.
Implicit Types (cursor : list A) (i start : Z).

(** Rows before [start] are skipped without counting them, so the counter
    never reaches [start]. *)
Lemma limit_loop_never_starts end_ start i cursor :
  i < start → Mongo.limit_loop end_ start i cursor = [].
Proof.
  intros Hi. induction cursor as [|row cursor IH]; simpl; [done|].
  by rewrite (proj2 (Z.ltb_lt i start) Hi).
Qed.

Lemma limit_results_positive_start cursor limit start :
  0 < start → Mongo._limit_results cursor limit start = [].
Proof. intros. by apply limit_loop_never_starts. Qed.

Lemma limit_loop_unbounded end_ start i cursor :
  start ≤ i → Mongo.end_truthy end_ = false →
  Mongo.limit_loop end_ start i cursor = cursor.
Proof.
  intros Hi Hend. revert i Hi.
  induction cursor as [|row cursor IH]; intros i Hi; simpl; [done|].
  rewrite (proj2 (Z.ltb_ge i start) Hi), Hend. simpl.
  f_equal. apply IH. lia.
Qed.

Lemma limit_results_no_limit cursor :
  Mongo._limit_results cursor None 0 = cursor.
Proof. by apply limit_loop_unbounded. Qed.

Lemma limit_results_zero_limit cursor :
  Mongo._limit_results cursor (Some 0) 0 = cursor.
Proof. by apply limit_loop_unbounded. Qed.

(** With a limit the loop returns only after it has yielded row number
    [end], one row too many. *)
Lemma limit_loop_bounded e i cursor :
  0 ≤ i ≤ e → 0 < e →
  Mongo.limit_loop (Some e) 0 i cursor = take (Z.to_nat (e - i + 1)) cursor.
Proof.
  intros Hi He. revert i Hi.
  induction cursor as [|row cursor IH]; intros i Hi; simpl.
  { by rewrite take_nil. }
  rewrite (proj2 (Z.ltb_ge i 0)) by lia.
  replace (Z.to_nat (e - i + 1)) with (S (Z.to_nat (e - i))) by lia.
  simpl. f_equal.
  rewrite (proj2 (Z.eqb_neq e 0)) by lia. simpl.
  destruct (Z.leb_spec e i) as [Hle|Hlt].
  - replace (e - i) with 0 by lia. by rewrite take_0.
  - rewrite IH by lia. f_equal. lia.
Qed.

Lemma limit_results_from_zero cursor l :
  0 < l →
  Mongo._limit_results cursor (Some l) 0 = take (Z.to_nat (l + 1)) cursor.
Proof.
  intros Hl. unfold Mongo._limit_results.
  rewrite limit_loop_bounded by lia. f_equal. lia.
Qed.
End pagination.

(** C1.  The pagination helper does not return the slice
    [documents[s : min(s + l, N)]]: with three documents, [start = 1] and
    [limit = 1] it yields nothing where the slice is the second document,
    and with [start = 0] and [limit = 1] it yields two documents where the
    slice holds one. *)
Theorem limit_results_is_not_the_slice (d0 d1 d2 : Metadata) :
  Mongo._limit_results [d0; d1; d2] (Some 1) 1 = []
  ∧ py_slice [d0; d1; d2] 1 (Some 1) = [d1]
  ∧ Mongo._limit_results [d0; d1; d2] (Some 1) 0 = [d0; d1]
  ∧ py_slice [d0; d1; d2] 0 (Some 1) = [d0].
Proof. repeat split. Qed.

(** ** Projections *)

Lemma inclusion_mode_no_id :
  Store.inclusion_mode {[ "_id" := false ]} = false.
Proof. by vm_compute. Qed.

(** Reading with the projection [{"_id": False}] only drops the row
    identifier. *)
Lemma apply_projection_no_id (d : Metadata) :
  Store.apply_projection {[ "_id" := false ]} d = delete "_id" d.
Proof.
  apply map_eq. intros k. unfold Store.apply_projection.
  rewrite map_lookup_filter, lookup_delete.
  unfold Store.keeps. rewrite inclusion_mode_no_id.
  destruct (decide ("_id" = k)) as [<-|Hk].
  - destruct (d !! "_id"); simpl; [|done].
    rewrite option_guard_False; [done|]. simpl.
    rewrite lookup_singleton_eq. by rewrite bool_decide_eq_true_2.
  - destruct (d !! k); simpl; [|done].
    rewrite option_guard_True; [done|]. simpl.
    rewrite lookup_singleton_ne by done. by rewrite bool_decide_eq_false_2.
Qed.


Lemma get_projection_list ks default :
  ks ≠ [] →
  Mongo._get_projection (Mongo.KList ks) default
  = Ok (Mongo.keys_dict ks ∪ {[ "_id" := false ]}).
Proof.
  intros Hks. unfold Mongo._get_projection. simpl.
  by rewrite bool_decide_eq_false_2.
Qed.

Lemma keys_dict_lookup ks k :
  Mongo.keys_dict ks !! k = if bool_decide (k ∈ ks) then Some true else None.
Proof.
  unfold Mongo.keys_dict. case_bool_decide as Hk.
  - induction ks as [|k' ks IH]; [by apply elem_of_nil in Hk|].
    simpl. destruct (decide (k' = k)) as [->|Hne].
    + by rewrite lookup_insert_eq.
    + rewrite lookup_insert_ne by done. apply IH.
      apply elem_of_cons in Hk as [->|]; [done|done].
  - apply not_elem_of_list_to_map_1. rewrite <-list_fmap_compose.
    simpl. by rewrite list_fmap_id.
Qed.

(** A requested field list that does not name ["_id"] gives the projection
    that excludes ["_id"] and includes exactly the requested fields. *)
Lemma get_projection_list_exact ks default :
  ks ≠ [] → "_id" ∉ ks →
  ∃ p, Mongo._get_projection (Mongo.KList ks) default = Ok p
       ∧ p !! "_id" = Some false
       ∧ ∀ k, k ≠ "_id" →
              p !! k = if bool_decide (k ∈ ks) then Some true else None.
Proof.
  intros Hks Hid. eexists. split; [by apply get_projection_list|].
  split.
  - rewrite lookup_union, keys_dict_lookup, bool_decide_eq_false_2 by done.
    by rewrite lookup_singleton_eq.
  - intros k Hk. rewrite lookup_union, keys_dict_lookup.
    rewrite lookup_singleton_ne by done. by case_bool_decide.
Qed.

(** [find_files] without keys projects on [uuid] and [logical_name]. *)
Lemma get_projection_find_files_default :
  Mongo._get_projection Mongo.KNone
    (Some {[ "uuid" := true; "logical_name" := true ]})
  = Ok {[ "_id" := false; "uuid" := true; "logical_name" := true ]}.
Proof. by vm_compute. Qed.

(** C9.  A field list that names ["_id"] overrides the exclusion the
    projection starts with: the projection then includes the row identifier,
    and [find_files] returns it. *)
Theorem projection_includes_requested_row_id :
  Mongo._get_projection (Mongo.KList ["_id"])
    (Some {[ "uuid" := true; "logical_name" := true ]})
  = Ok {[ "_id" := true ]}
  ∧ (Mongo.find_files demo_env FAll (Mongo.KList ["_id"]) None 0 demo_db).2
    = Ok [{[ "_id" := VObjectId 1 ]}; {[ "_id" := VObjectId 2 ]}].
Proof. split; by vm_compute. Qed.


(** ** Running computations *)

Lemma run_bind {A B} (m : M A) (f : A → M B) db db' a :
  m db = (db', Ok a) → (m ≫= f) db = f a db'.
Proof. intros Hm. unfold mbind, M_bind. by rewrite Hm. Qed.


Lemma run_getitem (d : Metadata) k v db :
  d !! k = Some v → getitem d k db = (db, Ok v).
Proof. intros Hk. unfold getitem. by rewrite Hk. Qed.

Lemma truthy_Some (d : Metadata) k v :
  d !! k = Some v → Server.truthy (Some d) = Some d.
Proof.
  intros Hk. unfold Server.truthy. rewrite bool_decide_eq_false_2; [done|].
  intros ->. by rewrite lookup_empty in Hk.
Qed.

(** ** Reading files *)

Section reading.
Context (E : Env).

Lemma get_file_run f db :
  Store.well_formed f = true →
  Mongo.get_file E f db
  = (db, Ok ((λ r, delete "_id" r.2) <$> Store.find_first E f (files db))).
Proof.
  intros Hwf. unfold Mongo.get_file. rewrite Hwf.
  unfold mbind, M_bind, get_db, mret, M_ret, Store.find_one. simpl.
  do 2 f_equal. destruct (Store.find_first E f (files db)); simpl; [|done].
  by rewrite apply_projection_no_id.
Qed.

(** The document found under a uuid carries that uuid. *)
Lemma find_first_FEq k v l i row :
  Store.find_first E (FEq k v) l = Some (i, row) → row !! k = Some v.
Proof.
  intros (_ & Hm & _)%list_find_Some. simpl in Hm.
  by apply bool_decide_eq_true in Hm.
Qed.


End reading.

(** ** Create: an id reused for different content *)


(** ** Writes and the unique indexes *)

Section writes.
Context (E : Env).


Lemma existsb_true {A} (f : A → bool) (l : list A) x :
  x ∈ l → f x = true → existsb f l = true.
Proof.
  intros Hx Hfx. apply existsb_exists. exists x.
  by rewrite <-list_elem_of_In.
Qed.






End writes.

(** ** Create: a new replica of an existing file *)

Section replica.
Context (E : Env).


End replica.




(** The replica path extends the stored list with the request's list as it
    is: a location listed twice in the request is stored twice. *)
Example create_replica_keeps_request_duplicates :
  ∃ db',
    Server.FilesHandler_post demo_env "2021-01-01" "fresh"
      (file_metadata "A" "/data/a" "aa"
         [location "NERSC" "/data/a"; location "NERSC" "/data/a"]) demo_db
    = (db', Ok (mkResponse 200
         {[ "_links" := Server.links "/api/files" "/api";
            "file" := VStr "/api/files/A" ]}))
    ∧ (λ d, d !! "locations") <$> files db'
      = [Some (VList [location "WIPAC" "/data/a"; location "NERSC" "/data/a";
                      location "NERSC" "/data/a"]);
         Some (VList [location "WIPAC" "/data/b"])].
Proof. eexists. split; vm_compute; reflexivity. Qed.


(** ** Duplicate keys reported by the store *)


Lemma catch_error_ok (E : Env) class_name (method : M Response) db db' r :
  method db = (db', Ok r) →
  Server.catch_error E class_name method db = (db', Ok r).
Proof. intros Hm. unfold Server.catch_error. by rewrite Hm. Qed.




(** ** Snapshots of a collection addressed by name *)


(** Addressed by its id, the collection gets its snapshot listed. *)
Example snapshot_by_id_is_listed :
  ∃ db',
    (Server.handle demo_env
       (Server.POST_collection_snapshots "2021-01-01" "s1" "c1" None) demo_db).1
    = db'
    ∧ (λ d, d !! "collection_id") <$> snapshots db' = [Some (VStr "c1")]
    ∧ ∃ r, Server.handle demo_env
             (Server.GET_collection_snapshots "run2020"
                (Some (Server.mkKwargs FAll Mongo.KNone None 0))) db'
           = (db', Ok r)
           ∧ body r !! "snapshots"
             = Some (VList [VObj [("owner", VStr "me");
                                  ("collection_id", VStr "c1");
                                  ("creation_date", VStr "2021-01-01");
                                  ("uuid", VStr "s1");
                                  ("files", VList [VStr "A"; VStr "B"])]]).
Proof.
  eexists. split; [reflexivity|]. split; [by vm_compute|].
  eexists. split; vm_compute; reflexivity.
Qed.

(** ** Replace *)

Section replace.
Context (E : Env).

Lemma get_file_db f db : (Mongo.get_file E f db).1 = db.
Proof. unfold Mongo.get_file. by destruct (Store.well_formed f). Qed.

Lemma get_file_inv f db db' r :
  Mongo.get_file E f db = (db', r) → db' = db.
Proof. intros Hget. by rewrite <-(get_file_db f db), Hget. Qed.

(** A write at a position either is refused and changes nothing, or puts
    the new document there under the old row identifier. *)
Lemma write_at_effect c i old new db :
  (Store.write_at c i old new db).1 = db
  ∨ ((Store.write_at c i old new db).1
     = Store.set_docs c (<[i := new]> (Store.docs c db)) db
     ∧ new !! "_id" = old !! "_id").
Proof.
  unfold Store.write_at. case_bool_decide as Hid; [by left|].
  destruct (Store.duplicate_key _ _ _ _); [by left|]. by right.
Qed.

(** The effect of [replace_file] on the store: nothing, or the document
    replaces the first file with its uuid. *)
Lemma replace_file_effect (metadata : Metadata) u db db' r :
  metadata !! "uuid" = Some u →
  Mongo.replace_file E metadata db = (db', r) →
  db' = db
  ∨ ∃ i old new,
      Store.find_first E (FEq "uuid" u) (files db) = Some (i, old)
      ∧ db' = Store.set_docs Files (<[i := new]> (files db)) db
      ∧ (∀ k, k ≠ "_id" → new !! k = metadata !! k).
Proof.
  intros Hu. unfold Mongo.replace_file.
  erewrite run_bind by (by apply run_getitem).
  unfold mbind, M_bind, Store.replace_one.
  destruct (Store.find_first E (FEq "uuid" u) (Store.docs Files db))
    as [[i old]|] eqn:Hfind; [|intros [= <- _]; by left].
  set (new := match metadata !! "_id", old !! "_id" with
              | None, Some oid => <["_id" := oid]> metadata
              | _, _ => metadata
              end).
  assert (Hnew : ∀ k, k ≠ "_id" → new !! k = metadata !! k).
  { intros k Hk. unfold new.
    destruct (metadata !! "_id"), (old !! "_id"); try done.
    by rewrite lookup_insert_ne. }
  destruct (write_at_effect Files i old new db) as [Hsame|[Hwritten _]];
    destruct (Store.write_at Files i old new db) as [db1 [res|e]];
    simpl in *; subst db1.
  - intros Hcheck. left. revert Hcheck. unfold Mongo.check_modified.
    destruct (modified_count res) as [n|]; [case_bool_decide|];
      by intros [= <- _].
  - intros [= <- _]. by left.
  - intros Hcheck. right. exists i, old, new. split_and!; [done| |done].
    revert Hcheck. unfold Mongo.check_modified.
    destruct (modified_count res) as [n|]; [case_bool_decide|];
      by intros [= <- _].
  - intros [= <- _]. right. by exists i, old, new.
Qed.

(** The effect of a PUT on the store. *)
Lemma put_effect utcnow uuid (request_body : Metadata) db db' r :
  Server.SingleFileHandler_put E utcnow uuid request_body db = (db', r) →
  db' = db
  ∨ ∃ i old new,
      Store.find_first E (FEq "uuid" (VStr uuid)) (files db) = Some (i, old)
      ∧ db' = Store.set_docs Files (<[i := new]> (files db)) db
      ∧ (∀ k, k ≠ "_id" →
              new !! k = Server.set_last_modification_date utcnow
                           (<["uuid" := VStr uuid]> request_body) !! k).
Proof.
  unfold Server.SingleFileHandler_put.
  unfold mbind at 1, M_bind at 1.
  destruct (Mongo.get_file E (FEq "uuid" (VStr uuid)) db)
    as [db0 [db_file|e]] eqn:Hget;
    apply get_file_inv in Hget as ->; [|intros [= <- _]; by left].
  destruct (Server.truthy db_file) as [d|]; [|intros [= <- _]; by left].
  destruct (has_forbidden_attributes_modification E request_body d);
    [intros [= <- _]; by left|].
  unfold mbind at 1, M_bind at 1, get_db.
  destruct (contains_existing_filepaths E db request_body (Some uuid));
    [intros [= <- _]; by left|].
  destruct (validate_metadata_modification E _);
    [intros [= <- _]; by left|].
  unfold mbind, M_bind.
  destruct (Mongo.replace_file E _ db) as [db1 res] eqn:Hreplace.
  eapply replace_file_effect in Hreplace; last first.
  { unfold Server.set_last_modification_date.
    rewrite lookup_insert_ne by done. by rewrite lookup_insert_eq. }
  by destruct res as [[]|e]; intros [= <- _].
Qed.
End replace.

(** C10.  The document a PUT hands to [replace_file] carries the uuid of
    the request path, whatever the body says; after the request every stored
    file either is untouched or is that document, written over a record of
    the same uuid; so the uuids of the stored files are what they were. *)
Theorem replace_keeps_the_record_id
  (E : Env) (utcnow uuid : string) (request_body : Metadata) (db : Database) :
  let written := Server.set_last_modification_date utcnow
                   (<["uuid" := VStr uuid]> request_body) in
  let db' := (Server.SingleFileHandler_put E utcnow uuid request_body db).1 in
  written !! "uuid" = Some (VStr uuid)
  ∧ (λ d : Metadata, d !! "uuid") <$> files db'
    = (λ d : Metadata, d !! "uuid") <$> files db
  ∧ ∀ j d', files db' !! j = Some d' →
      files db !! j = Some d'
      ∨ ∃ old, files db !! j = Some old
               ∧ old !! "uuid" = Some (VStr uuid)
               ∧ d' !! "uuid" = Some (VStr uuid)
               ∧ ∀ k, k ≠ "_id" → d' !! k = written !! k.
Proof.
  intros written db'.
  assert (Hw : written !! "uuid" = Some (VStr uuid)).
  { unfold written, Server.set_last_modification_date.
    rewrite lookup_insert_ne by done. by rewrite lookup_insert_eq. }
  split; [done|].
  destruct (Server.SingleFileHandler_put E utcnow uuid request_body db)
    as [db1 r] eqn:Hput. subst db'. simpl.
  destruct (put_effect E utcnow uuid request_body db db1 r Hput)
    as [Hsame|(i & old & new & Hfind & Hdb & Hnew)].
  { rewrite Hsame. split; [done|]. intros j d' Hj. by left. }
  rewrite Hdb. simpl.
  assert (Hold : old !! "uuid" = Some (VStr uuid))
    by (by eapply find_first_FEq).
  assert (Hi : files db !! i = Some old)
    by (by apply list_find_Some in Hfind as (? & _)).
  assert (Hnewu : new !! "uuid" = Some (VStr uuid))
    by (by rewrite Hnew).
  split.
  - rewrite list_fmap_insert, Hnewu, <-Hold.
    apply list_insert_id. by rewrite list_lookup_fmap, Hi.
  - intros j d' Hj. destruct (decide (i = j)) as [<-|Hne].
    + right. exists old. rewrite list_lookup_insert_eq in Hj
        by (by eapply lookup_lt_Some). by simplify_eq.
    + left. by rewrite list_lookup_insert_ne in Hj.
Qed.

(** A PUT whose body names another uuid still rewrites the record of the
    path. *)
Example replace_ignores_the_body_uuid :
  (λ d, (d !! "uuid", d !! "logical_name"))
    <$> files (Server.handle demo_env
                 (Server.PUT_file "2021-01-01" "A"
                    (file_metadata "B" "/data/a2" "aa"
                       [location "WIPAC" "/data/a"])) demo_db).1
  = [(Some (VStr "A"), Some (VStr "/data/a2"));
     (Some (VStr "B"), Some (VStr "/data/b"))].
Proof. by vm_compute. Qed.

(** ** AddLocations *)

Section add_locations.
Context (E : Env).


Lemma has_path_run loc path db :
  has_path loc path → Server.loc_path loc db = (db, Ok path).
Proof. intros (fs & kv & -> & Hfind & ->). simpl. by rewrite Hfind. Qed.





End add_locations.






(** ** AddLocations, run twice *)

Section idempotence.
Context (E : Env).



End idempotence.

Section second_run.
Context (E : Env).


End second_run.





(** ** Snapshots are never rewritten *)

Section frozen.
Context (E : Env).

Lemma keeps_read {A} (m : M A) :
  (∀ db, (m db).1 = db) → keeps_snapshots m.
Proof. intros Hm db db' r Hrun. by rewrite <-(Hm db), Hrun. Qed.

Lemma keeps_ret {A} (a : A) : keeps_snapshots (mret a).
Proof. by apply keeps_read. Qed.

Lemma keeps_raise {A} e : keeps_snapshots (raise e : M A).
Proof. by apply keeps_read. Qed.

Lemma keeps_lift_result {A} (r : Result A) : keeps_snapshots (lift_result r).
Proof. by apply keeps_read. Qed.

Lemma keeps_get_db : keeps_snapshots get_db.
Proof. by apply keeps_read. Qed.

Lemma keeps_bind {A B} (m : M A) (f : A → M B) :
  keeps_snapshots m → (∀ a, keeps_snapshots (f a)) → keeps_snapshots (m ≫= f).
Proof.
  intros Hm Hf db db' r. unfold mbind, M_bind.
  destruct (m db) as [db1 [a|e]] eqn:Hrun.
  - intros Hfa. etrans; [by eapply Hm|by eapply Hf].
  - intros [= <- <-]. by eapply Hm.
Qed.

Lemma keeps_getitem (d : Metadata) k : keeps_snapshots (getitem d k).
Proof. apply keeps_read. intros db. unfold getitem. by destruct (d !! k). Qed.

Lemma keeps_as_str v : keeps_snapshots (Server.as_str v).
Proof. apply keeps_read. intros db. by destruct v. Qed.

Lemma keeps_as_list v : keeps_snapshots (Server.as_list v).
Proof. apply keeps_read. intros db. by destruct v. Qed.

Lemma keeps_loc_path v : keeps_snapshots (Server.loc_path v).
Proof.
  apply keeps_read. intros db. destruct v; try done. simpl.
  by destruct (List.find _ _).
Qed.

(** The store's writes: only an insert into [snapshots] touches the
    snapshots, and it appends. *)
Lemma keeps_insert_one c doc : keeps_snapshots (Store.insert_one c doc).
Proof.
  intros db db' r. unfold Store.insert_one.
  destruct (Store.duplicate_key _ _ _ _); intros [= <- _]; [done|].
  destruct c; simpl; [done|done|]. by apply prefix_app_r.
Qed.

Lemma keeps_write_at i old new :
  keeps_snapshots (Store.write_at Files i old new).
Proof.
  intros db db' r. unfold Store.write_at.
  case_bool_decide; [by intros [= <- _]|].
  by destruct (Store.duplicate_key _ _ _ _); intros [= <- _].
Qed.

Lemma keeps_update_one f u : keeps_snapshots (Store.update_one E Files f u).
Proof.
  intros db db' r. unfold Store.update_one.
  destruct (Store.find_first _ _ _) as [[i old]|]; [|by intros [= <- _]].
  destruct (Store.apply_update u old); [|by intros [= <- _]].
  apply keeps_write_at.
Qed.

Lemma keeps_replace_one f doc :
  keeps_snapshots (Store.replace_one E Files f doc).
Proof.
  intros db db' r. unfold Store.replace_one.
  destruct (Store.find_first _ _ _) as [[i old]|]; [|by intros [= <- _]].
  apply keeps_write_at.
Qed.

Lemma keeps_delete_one f : keeps_snapshots (Store.delete_one E Files f).
Proof.
  intros db db' r. unfold Store.delete_one.
  by destruct (Store.find_first _ _ _) as [[i old]|]; intros [= <- _].
Qed.

Lemma keeps_check_modified res u :
  keeps_snapshots (Mongo.check_modified E res u).
Proof.
  unfold Mongo.check_modified. destruct (modified_count res); [|apply keeps_ret].
  case_bool_decide; [apply keeps_raise|apply keeps_ret].
Qed.

(** Steps through a computation built from the pieces above. *)
Ltac keeps_step :=
  first
    [ apply keeps_ret | apply keeps_raise | apply keeps_get_db
    | apply keeps_lift_result | apply keeps_getitem | apply keeps_as_str
    | apply keeps_as_list | apply keeps_loc_path | apply keeps_insert_one
    | apply keeps_update_one | apply keeps_replace_one
    | apply keeps_delete_one | apply keeps_check_modified
    | assumption
    | apply keeps_bind; [|intros ?]
    | match goal with
      | |- keeps_snapshots (match ?x with _ => _ end) => destruct x
      | |- keeps_snapshots (if ?b then _ else _) => destruct b
      end ].

Ltac keeps := repeat keeps_step.

Lemma keeps_get_file f : keeps_snapshots (Mongo.get_file E f).
Proof. unfold Mongo.get_file. keeps. Qed.

Lemma keeps_get_collection f : keeps_snapshots (Mongo.get_collection E f).
Proof. unfold Mongo.get_collection. keeps. Qed.

Lemma keeps_get_snapshot f : keeps_snapshots (Mongo.get_snapshot E f).
Proof. unfold Mongo.get_snapshot. keeps. Qed.

Lemma keeps_find_files q k l s : keeps_snapshots (Mongo.find_files E q k l s).
Proof. unfold Mongo.find_files. keeps. Qed.

Lemma keeps_find_collections k l s :
  keeps_snapshots (Mongo.find_collections E k l s).
Proof. unfold Mongo.find_collections. keeps. Qed.

Lemma keeps_find_snapshots q k l s :
  keeps_snapshots (Mongo.find_snapshots E q k l s).
Proof. unfold Mongo.find_snapshots. keeps. Qed.

Lemma keeps_count_files q : keeps_snapshots (Mongo.count_files E q).
Proof. unfold Mongo.count_files. keeps. Qed.

Lemma keeps_create_file md : keeps_snapshots (Mongo.create_file md).
Proof. unfold Mongo.create_file. keeps. Qed.

Lemma keeps_create_collection md : keeps_snapshots (Mongo.create_collection md).
Proof. unfold Mongo.create_collection. keeps. Qed.

Lemma keeps_create_snapshot md : keeps_snapshots (Mongo.create_snapshot md).
Proof. unfold Mongo.create_snapshot. keeps. Qed.

Lemma keeps_update_file u md : keeps_snapshots (Mongo.update_file E u md).
Proof. unfold Mongo.update_file. keeps. Qed.

Lemma keeps_replace_file md : keeps_snapshots (Mongo.replace_file E md).
Proof. unfold Mongo.replace_file. keeps. Qed.

Lemma keeps_delete_file f : keeps_snapshots (Mongo.delete_file E f).
Proof. unfold Mongo.delete_file. keeps. Qed.

Lemma keeps_append_distinct t u md :
  keeps_snapshots (Mongo.append_distinct_elements_to_file E t u md).
Proof. unfold Mongo.append_distinct_elements_to_file. keeps. Qed.

Ltac keeps_mongo :=
  first
    [ apply keeps_get_file | apply keeps_get_collection
    | apply keeps_get_snapshot | apply keeps_find_files
    | apply keeps_find_collections | apply keeps_find_snapshots
    | apply keeps_count_files | apply keeps_create_file
    | apply keeps_create_collection | apply keeps_create_snapshot
    | apply keeps_update_file | apply keeps_replace_file
    | apply keeps_delete_file | apply keeps_append_distinct
    | keeps_step ].

Lemma keeps_scan_locations uuid locs acc :
  keeps_snapshots (Server.scan_locations E uuid locs acc).
Proof.
  revert acc. induction locs as [|loc locs IH]; intros acc; simpl;
    repeat first [apply IH | keeps_mongo].
Qed.

Lemma keeps_mapM {A B} (f : A → M B) (l : list A) :
  (∀ a, keeps_snapshots (f a)) → keeps_snapshots (mapM f l).
Proof.
  intros Hf. induction l as [|a l IH]; simpl;
    repeat first [apply Hf | keeps_step].
Qed.

Lemma keeps_lookup_collection uid :
  keeps_snapshots (Server.lookup_collection E uid).
Proof. unfold Server.lookup_collection. repeat keeps_mongo. Qed.

Lemma keeps_catch_error class_name (m : M Response) :
  keeps_snapshots m → keeps_snapshots (Server.catch_error E class_name m).
Proof.
  intros Hm db db' r. unfold Server.catch_error.
  destruct (m db) as [db1 [resp|e]] eqn:Hrun; intros [= <- _]; by eapply Hm.
Qed.

Ltac keeps_handler :=
  repeat first
    [ apply keeps_scan_locations | apply keeps_lookup_collection
    | apply keeps_mapM; intros ? | keeps_mongo ].

(** No request changes or removes a snapshot document. *)
Lemma keeps_handle (request : Server.Request) :
  keeps_snapshots (Server.handle E request).
Proof.
  destruct request; simpl; apply keeps_catch_error.
  - unfold Server.FilesHandler_get. keeps_handler.
  - unfold Server.FilesHandler_post. keeps_handler.
  - unfold Server.FilesCountHandler_get. keeps_handler.
  - unfold Server.SingleFileHandler_get. keeps_handler.
  - intros db db' r. unfold Server.SingleFileHandler_delete.
    destruct (Mongo.delete_file E _ db) as [db1 [[]|e]] eqn:Hrun;
      intros [= <- _]; by eapply keeps_delete_file.
  - unfold Server.SingleFileHandler_patch. keeps_handler.
  - unfold Server.SingleFileHandler_put. keeps_handler.
  - unfold Server.SingleFileLocationsHandler_post. keeps_handler.
  - unfold Server.CollectionsHandler_get. keeps_handler.
  - unfold Server.CollectionsHandler_post. keeps_handler.
  - unfold Server.SingleCollectionHandler_get. keeps_handler.
  - unfold Server.SingleCollectionFilesHandler_get. keeps_handler.
  - unfold Server.SingleCollectionSnapshotsHandler_get. keeps_handler.
  - unfold Server.SingleCollectionSnapshotsHandler_post. keeps_handler.
  - unfold Server.SingleSnapshotHandler_get. keeps_handler.
  - unfold Server.SingleSnapshotFilesHandler_get. keeps_handler.
Qed.
End frozen.

Section frozen_reads.
Context (E : Env).

Lemma serve_keeps_snapshots requests db :
  snapshots db `prefix_of` snapshots (Server.serve E requests db).1.
Proof.
  revert db. induction requests as [|request requests IH]; intros db; simpl.
  { done. }
  destruct (Server.handle E request db) as [db1 [resp|e]] eqn:Hrun.
  - etrans; [by eapply keeps_handle|]. specialize (IH db1).
    by destruct (Server.serve E requests db1).
  - etrans; [by eapply keeps_handle|]. apply IH.
Qed.

Lemma get_snapshot_run f db :
  Mongo.get_snapshot E f db
  = (db, Ok ((λ r, delete "_id" r.2) <$> Store.find_first E f (snapshots db))).
Proof.
  unfold Mongo.get_snapshot, mbind, M_bind, get_db, mret, M_ret,
    Store.find_one. simpl.
  do 2 f_equal. destruct (Store.find_first E f (snapshots db)); simpl; [|done].
  by rewrite apply_projection_no_id.
Qed.

(** A snapshot that can be read stays readable, unchanged, when snapshots
    are only appended. *)
Lemma get_snapshot_stable f db db' snapshot :
  snapshots db `prefix_of` snapshots db' →
  Mongo.get_snapshot E f db = (db, Ok (Some snapshot)) →
  Mongo.get_snapshot E f db' = (db', Ok (Some snapshot)).
Proof.
  intros [later Hlater]. rewrite !get_snapshot_run, Hlater.
  destruct (Store.find_first E f (snapshots db)) as [[i row]|] eqn:Hfind;
    [|done].
  intros [= <-]. unfold Store.find_first in *.
  by erewrite list_find_app_l.
Qed.
End frozen_reads.

(** C6.  No request of the API changes or removes a snapshot document:
    whatever requests are served after a snapshot can be read, the store
    still holds every earlier snapshot, in place, and reading the snapshot
    returns the document, hence the [files] list, that it returned before. *)
Theorem snapshots_are_frozen
  (E : Env) (uid : string) (snapshot : Metadata) (db : Database)
  (requests : list Server.Request) :
  Mongo.get_snapshot E (FEq "uuid" (VStr uid)) db = (db, Ok (Some snapshot)) →
  let db' := (Server.serve E requests db).1 in
  snapshots db `prefix_of` snapshots db'
  ∧ Mongo.get_snapshot E (FEq "uuid" (VStr uid)) db' = (db', Ok (Some snapshot))
  ∧ (Server.SingleSnapshotHandler_get E uid db').2
    = (Server.SingleSnapshotHandler_get E uid db).2.
Proof.
  intros Hget db'.
  assert (Hprefix : snapshots db `prefix_of` snapshots db')
    by apply serve_keeps_snapshots.
  assert (Hget' := get_snapshot_stable E _ _ _ _ Hprefix Hget).
  split_and!; [done|done|].
  unfold Server.SingleSnapshotHandler_get.
  rewrite (run_bind _ _ _ _ _ Hget'), (run_bind _ _ _ _ _ Hget).
  by destruct (Server.truthy (Some snapshot)).
Qed.

(** The scenario of the claim: a snapshot of a collection that matches the
    files [A] and [B]; then [B] is deleted and a file [C] is created, which
    the collection matches too; the snapshot still lists [A] and [B]. *)
Lemma snapshots_are_frozen_witness :
  ∃ db,
    (Server.handle demo_env
       (Server.POST_collection_snapshots "2021-01-01" "s1" "c1" None)
       demo_db).1 = db
    ∧ let db' :=
        (Server.serve demo_env
           [Server.DELETE_file "B";
            Server.POST_files "2021-01-02" "fresh"
              (file_metadata "C" "/data/c" "cc" [location "WIPAC" "/data/c"])]
           db).1 in
      (λ d, d !! "uuid") <$> files db' = [Some (VStr "A"); Some (VStr "C")]
      ∧ snapshots db `prefix_of` snapshots db'
      ∧ Mongo.get_snapshot demo_env (FEq "uuid" (VStr "s1")) db'
        = (db', Ok (Some {[ "uuid" := VStr "s1"; "collection_id" := VStr "c1";
                            "owner" := VStr "me";
                            "creation_date" := VStr "2021-01-01";
                            "files" := VList [VStr "A"; VStr "B"] ]}))
      ∧ (Server.SingleSnapshotHandler_get demo_env "s1" db').2
        = (Server.SingleSnapshotHandler_get demo_env "s1" db).2.
Proof.
  eexists. split; [reflexivity|]. intros db'.
  split; [by vm_compute|].
  apply (snapshots_are_frozen demo_env "s1"
           {[ "uuid" := VStr "s1"; "collection_id" := VStr "c1";
              "owner" := VStr "me"; "creation_date" := VStr "2021-01-01";
              "files" := VList [VStr "A"; VStr "B"] ]}).
  vm_compute. reflexivity.
Defined.

(** ** What a snapshot captures *)

Section capture.
Context (E : Env).

Lemma get_collection_inv f db db' r :
  Mongo.get_collection E f db = (db', r) → db' = db.
Proof. by intros [= <- _]. Qed.

Lemma lookup_collection_inv uid db db' r :
  Server.lookup_collection E uid db = (db', r) → db' = db.
Proof.
  unfold Server.lookup_collection, mbind, M_bind. simpl.
  destruct (Server.truthy _); by intros [= <- _].
Qed.

(** [find_files(query, keys=['uuid'])] returns every matching file, in
    natural order, projected on its uuid. *)
Lemma find_files_uuid_run query db :
  Mongo.find_files E query (Mongo.KList ["uuid"]) None 0 db
  = (db, Ok (Store.apply_projection
               (Mongo.keys_dict ["uuid"] ∪ {[ "_id" := false ]})
             <$> filter (λ d, Store.matches E query d = true) (files db))).
Proof.
  unfold Mongo.find_files. erewrite run_bind; last first.
  { unfold lift_result. by rewrite get_projection_list. }
  unfold mbind, M_bind, get_db, mret, M_ret.
  by rewrite limit_results_no_limit.
Qed.

Lemma projection_on_uuid (d : Metadata) :
  Store.apply_projection (Mongo.keys_dict ["uuid"] ∪ {[ "_id" := false ]}) d
    !! "uuid" = d !! "uuid".
Proof.
  unfold Store.apply_projection. rewrite map_lookup_filter.
  destruct (d !! "uuid"); simpl; [|done].
  by rewrite option_guard_True by (by vm_compute).
Qed.

Lemma mapM_getitem_inv k (rows : list Metadata) db db' ids :
  mapM (λ row, getitem row k) rows db = (db', Ok ids) →
  db' = db ∧ Some <$> ids = (λ row, row !! k) <$> rows.
Proof.
  revert ids. induction rows as [|row rows IH]; intros ids; simpl.
  { by intros [= <- <-]. }
  unfold mbind at 1, M_bind at 1, getitem at 1.
  destruct (row !! k) as [v|]; simpl; [|done].
  unfold mbind, M_bind.
  destruct (mapM (λ row, getitem row k) rows db) as [db1 [ids'|e]] eqn:Hrows;
    [|done].
  intros [= <- <-]. destruct (IH ids' eq_refl) as [-> Hids].
  split; [done|]. rewrite fmap_cons. f_equal. exact Hids.
Qed.

(** A snapshot that is created (status 201) is appended to the snapshots;
    the files and the earlier snapshots are untouched.  Its [collection_id]
    is the identifier the request addressed the collection with, and its
    [files] are the uuids of the files that match the collection's query
    at that moment, in natural order. *)
Lemma snapshot_captures_matching_files utcnow uuid1 uid request_body db db' r :
  Server.SingleCollectionSnapshotsHandler_post E utcnow uuid1 uid request_body db
  = (db', Ok r) →
  status r = 201 →
  ∃ ret query snapshot ids,
    Server.lookup_collection E uid db = (db, Ok (Some ret))
    ∧ Server.decode_query E ret = Some query
    ∧ files db' = files db
    ∧ snapshots db' = snapshots db ++ [snapshot]
    ∧ snapshot !! "collection_id" = Some (VStr uid)
    ∧ snapshot !! "files" = Some (VList ids)
    ∧ Some <$> ids
      = (λ d : Metadata, d !! "uuid")
        <$> filter (λ d, eval_query E query d = true) (files db).
Proof.
  unfold Server.SingleCollectionSnapshotsHandler_post.
  unfold mbind at 1, M_bind at 1.
  destruct (Server.lookup_collection E uid db) as [db0 [[ret|]|e]] eqn:Hlookup;
    pose proof (lookup_collection_inv _ _ _ _ Hlookup) as ->;
    [|by intros [= <- <-]|done].
  destruct (Server.decode_query E ret) as [query|] eqn:Hquery; [|done].
  unfold mbind at 1, M_bind at 1.
  set (owner_of := if bool_decide _ then getitem ret "owner" else _).
  assert (Hread : (owner_of db).1 = db).
  { unfold owner_of, getitem.
    destruct (bool_decide _); [destruct (ret !! "owner")|destruct (_ !! "owner")];
      done. }
  destruct (owner_of db) as [db0 [owner|e]]; simpl in Hread; subst db0;
    [|done].
  clear owner_of.
  set (metadata :=
         delete "meta_modify_date"
           (<["creation_date" := VStr utcnow]>
              (Server.set_last_modification_date utcnow
                 (if bool_decide
                       (<["owner" := owner]>
                          (<["collection_id" := VStr uid]>
                             (default ∅ request_body)) !! "uuid" = None)
                  then <["uuid" := VStr uuid1]>
                         (<["owner" := owner]>
                            (<["collection_id" := VStr uid]>
                               (default ∅ request_body)))
                  else <["owner" := owner]>
                         (<["collection_id" := VStr uid]>
                            (default ∅ request_body)))))).
  assert (Hcid : metadata !! "collection_id" = Some (VStr uid)).
  { unfold metadata, Server.set_last_modification_date.
    rewrite lookup_delete_ne, !lookup_insert_ne by done.
    case_bool_decide; rewrite !lookup_insert_ne by done;
      by rewrite lookup_insert_eq. }
  unfold mbind at 1, M_bind at 1, getitem at 1.
  destruct (metadata !! "uuid") as [md_uuid|]; simpl; [|done].
  unfold mbind at 1, M_bind at 1. rewrite get_snapshot_run.
  destruct (Server.truthy _); [by intros [= <- <-]|].
  unfold mbind at 1, M_bind at 1. rewrite find_files_uuid_run.
  unfold mbind at 1, M_bind at 1.
  destruct (mapM (λ row, getitem row "uuid") _ db) as [db0 [ids|e]] eqn:Hids;
    [|done].
  apply mapM_getitem_inv in Hids as [-> Hids].
  unfold mbind at 1, M_bind at 1, Mongo.create_snapshot.
  unfold mbind at 1, M_bind at 1, Store.insert_one.
  destruct (Store.duplicate_key _ _ _ _); [done|].
  destruct (negb (value_truthy _)); [done|].
  unfold getitem.
  destruct (<["files" := VList ids]> metadata !! "uuid") as [v|]; simpl;
    [|done].
  unfold mbind, M_bind. destruct v; simpl; try done.
  intros [= <- _] _. eexists ret, query, _, ids. simpl.
  split_and!; try done.
  - by rewrite lookup_insert_ne, lookup_insert_ne.
  - rewrite lookup_insert_ne by done. by rewrite lookup_insert_eq.
  - rewrite Hids, <-list_fmap_compose. apply list_fmap_ext.
    intros _ d _. simpl. apply projection_on_uuid.
Qed.
End capture.

(** * Further properties *)

(** ** Properties of the store kept by computations *)

Section preserves_basics.
Context (E : Env) (I : Database → Prop).

Lemma preserves_read {A} (m : M A) :
  (∀ db, (m db).1 = db) → preserves I m.
Proof. intros Hm db db' r Hrun. by rewrite <-(Hm db), Hrun. Qed.

Lemma preserves_ret {A} (a : A) : preserves I (mret a).
Proof. by apply preserves_read. Qed.

Lemma preserves_raise {A} e : preserves I (raise e : M A).
Proof. by apply preserves_read. Qed.

Lemma preserves_lift_result {A} (r : Result A) : preserves I (lift_result r).
Proof. by apply preserves_read. Qed.

Lemma preserves_get_db : preserves I get_db.
Proof. by apply preserves_read. Qed.

Lemma preserves_bind {A B} (m : M A) (f : A → M B) :
  preserves I m → (∀ a, preserves I (f a)) → preserves I (m ≫= f).
Proof.
  intros Hm Hf db db' r. unfold mbind, M_bind.
  destruct (m db) as [db1 [a|e]] eqn:Hrun.
  - intros Hfa HI. eapply Hf; [exact Hfa|]. by eapply Hm.
  - intros [= <- <-]. by eapply Hm.
Qed.

Lemma preserves_getitem (d : Metadata) k : preserves I (getitem d k).
Proof. apply preserves_read. intros db. unfold getitem. by destruct (d !! k). Qed.

Lemma preserves_as_str v : preserves I (Server.as_str v).
Proof. apply preserves_read. intros db. by destruct v. Qed.

Lemma preserves_as_list v : preserves I (Server.as_list v).
Proof. apply preserves_read. intros db. by destruct v. Qed.

Lemma preserves_loc_path v : preserves I (Server.loc_path v).
Proof.
  apply preserves_read. intros db. destruct v; try done. simpl.
  by destruct (List.find _ _).
Qed.

Lemma preserves_check_modified res u :
  preserves I (Mongo.check_modified E res u).
Proof.
  unfold Mongo.check_modified.
  destruct (modified_count res); [|apply preserves_ret].
  case_bool_decide; [apply preserves_raise|apply preserves_ret].
Qed.

Lemma preserves_catch_error class_name (m : M Response) :
  preserves I m → preserves I (Server.catch_error E class_name m).
Proof.
  intros Hm db db' r. unfold Server.catch_error.
  destruct (m db) as [db1 [resp|e]] eqn:Hrun; intros [= <- _]; by eapply Hm.
Qed.
End preserves_basics.

(** Steps through a computation: the pieces that only read, the writes
    that the context says keep the property, binds and case distinctions. *)
Ltac preserves_step :=
  first
    [ apply preserves_ret | apply preserves_raise | apply preserves_get_db
    | apply preserves_lift_result | apply preserves_getitem
    | apply preserves_as_str | apply preserves_as_list
    | apply preserves_loc_path | apply preserves_check_modified
    | match goal with
      | H : context [preserves] |- preserves _ _ => apply H
      end
    | apply preserves_bind; [|intros ?]
    | match goal with
      | |- preserves _ (match ?x with _ => _ end) => destruct x
      | |- preserves _ (if ?b then _ else _) => destruct b
      end ].

Section preserves_reads.
Context (E : Env) (I : Database → Prop).

Lemma preserves_get_file f : preserves I (Mongo.get_file E f).
Proof. unfold Mongo.get_file. repeat preserves_step. Qed.

Lemma preserves_get_collection f : preserves I (Mongo.get_collection E f).
Proof. unfold Mongo.get_collection. repeat preserves_step. Qed.

Lemma preserves_get_snapshot f : preserves I (Mongo.get_snapshot E f).
Proof. unfold Mongo.get_snapshot. repeat preserves_step. Qed.

Lemma preserves_find_files q k l s : preserves I (Mongo.find_files E q k l s).
Proof. unfold Mongo.find_files. repeat preserves_step. Qed.

Lemma preserves_find_collections k l s :
  preserves I (Mongo.find_collections E k l s).
Proof. unfold Mongo.find_collections. repeat preserves_step. Qed.

Lemma preserves_find_snapshots q k l s :
  preserves I (Mongo.find_snapshots E q k l s).
Proof. unfold Mongo.find_snapshots. repeat preserves_step. Qed.

Lemma preserves_count_files q : preserves I (Mongo.count_files E q).
Proof. unfold Mongo.count_files. repeat preserves_step. Qed.
End preserves_reads.

Ltac preserves_mongo_read :=
  first
    [ apply preserves_get_file | apply preserves_get_collection
    | apply preserves_get_snapshot | apply preserves_find_files
    | apply preserves_find_collections | apply preserves_find_snapshots
    | apply preserves_count_files | preserves_step ].

Section preserves_gets.
Context (E : Env) (I : Database → Prop).

Lemma preserves_lookup_collection uid :
  preserves I (Server.lookup_collection E uid).
Proof. unfold Server.lookup_collection. repeat preserves_mongo_read. Qed.

Lemma preserves_scan_locations uuid locs acc :
  preserves I (Server.scan_locations E uuid locs acc).
Proof.
  revert acc. induction locs as [|loc locs IH]; intros acc; simpl;
    repeat preserves_mongo_read.
Qed.

Lemma preserves_mapM {A B} (f : A → M B) (l : list A) :
  (∀ a, preserves I (f a)) → preserves I (mapM f l).
Proof.
  intros Hf. induction l as [|a l IH]; simpl; repeat preserves_step.
Qed.

(** The GET handlers call nothing that writes. *)
Lemma preserves_get_request request :
  is_get request = true → preserves I (Server.handle E request).
Proof.
  destruct request; try done; intros _; simpl; apply preserves_catch_error.
  - unfold Server.FilesHandler_get. repeat preserves_mongo_read.
  - unfold Server.FilesCountHandler_get. repeat preserves_mongo_read.
  - unfold Server.SingleFileHandler_get. repeat preserves_mongo_read.
  - unfold Server.CollectionsHandler_get. repeat preserves_mongo_read.
  - unfold Server.SingleCollectionHandler_get.
    repeat first [apply preserves_lookup_collection | preserves_mongo_read].
  - unfold Server.SingleCollectionFilesHandler_get.
    repeat first [apply preserves_lookup_collection | preserves_mongo_read].
  - unfold Server.SingleCollectionSnapshotsHandler_get.
    repeat first [apply preserves_lookup_collection | preserves_mongo_read].
  - unfold Server.SingleSnapshotHandler_get. repeat preserves_mongo_read.
  - unfold Server.SingleSnapshotFilesHandler_get. repeat preserves_mongo_read.
Qed.
End preserves_gets.

Section preserves_writes.
Context (E : Env) (I : Database → Prop).
Hypothesis Hinsert : ∀ c doc, preserves I (Store.insert_one c doc).
Hypothesis Hupdate : ∀ f u, preserves I (Store.update_one E Files f u).
Hypothesis Hreplace : ∀ f doc, preserves I (Store.replace_one E Files f doc).
Hypothesis Hdelete : ∀ f, preserves I (Store.delete_one E Files f).

Lemma preserves_create_file md : preserves I (Mongo.create_file md).
Proof. unfold Mongo.create_file. repeat preserves_step. Qed.

Lemma preserves_create_collection md : preserves I (Mongo.create_collection md).
Proof. unfold Mongo.create_collection. repeat preserves_step. Qed.

Lemma preserves_create_snapshot md : preserves I (Mongo.create_snapshot md).
Proof. unfold Mongo.create_snapshot. repeat preserves_step. Qed.

Lemma preserves_update_file u md : preserves I (Mongo.update_file E u md).
Proof. unfold Mongo.update_file. repeat preserves_step. Qed.

Lemma preserves_replace_file md : preserves I (Mongo.replace_file E md).
Proof. unfold Mongo.replace_file. repeat preserves_step. Qed.

Lemma preserves_delete_file f : preserves I (Mongo.delete_file E f).
Proof. unfold Mongo.delete_file. repeat preserves_step. Qed.

Lemma preserves_append_distinct t u md :
  preserves I (Mongo.append_distinct_elements_to_file E t u md).
Proof. unfold Mongo.append_distinct_elements_to_file. repeat preserves_step. Qed.

Ltac preserves_handler :=
  repeat first
    [ apply preserves_scan_locations | apply preserves_lookup_collection
    | apply preserves_mapM; intros ?
    | apply preserves_create_file | apply preserves_create_collection
    | apply preserves_create_snapshot | apply preserves_update_file
    | apply preserves_replace_file | apply preserves_delete_file
    | apply preserves_append_distinct | preserves_mongo_read ].

(** A property that the four writes of the store keep is kept by every
    request. *)
Lemma preserves_handle request : preserves I (Server.handle E request).
Proof.
  destruct (is_get request) eqn:Hget; [by apply preserves_get_request|].
  destruct request; try done; simpl; apply preserves_catch_error.
  - unfold Server.FilesHandler_post. preserves_handler.
  - intros db db' r. unfold Server.SingleFileHandler_delete.
    destruct (Mongo.delete_file E _ db) as [db1 [[]|e]] eqn:Hrun;
      intros [= <- _]; by eapply preserves_delete_file.
  - unfold Server.SingleFileHandler_patch. preserves_handler.
  - unfold Server.SingleFileHandler_put. preserves_handler.
  - unfold Server.SingleFileLocationsHandler_post. preserves_handler.
  - unfold Server.CollectionsHandler_post. preserves_handler.
  - unfold Server.SingleCollectionSnapshotsHandler_post. preserves_handler.
Qed.

Lemma preserves_serve requests db :
  I db → I (Server.serve E requests db).1.
Proof.
  revert db. induction requests as [|request requests IH]; intros db HI; simpl.
  { done. }
  destruct (Server.handle E request db) as [db1 [resp|e]] eqn:Hrun.
  - assert (HI1 : I db1) by (by eapply preserves_handle).
    specialize (IH db1 HI1). by destruct (Server.serve E requests db1).
  - apply IH. by eapply preserves_handle.
Qed.
End preserves_writes.

(** ** Requests that only read *)

(** X1.  A GET request never writes: whatever it answers, the store it
    leaves is the store it found. *)
Theorem get_requests_never_write
  (E : Env) (request : Server.Request) (db : Database) :
  is_get request = true → (Server.handle E request db).1 = db.
Proof.
  intros Hget.
  destruct (Server.handle E request db) as [db' r] eqn:Hrun. simpl.
  by eapply (preserves_get_request E (λ d, d = db) request Hget).
Qed.

Lemma get_requests_never_write_witness :
  (Server.handle demo_env
     (Server.GET_collection_files "run2020"
        (Some (Server.mkKwargs FAll (Mongo.KList ["uuid"; "checksum"])
                 (Some 10) 0)))
     demo_db).1 = demo_db.
Proof. by apply get_requests_never_write. Defined.

(** ** Collections are never rewritten *)

Section collections_frozen.
Context (E : Env) (before : list Metadata).

Let grows (db : Database) : Prop := before `prefix_of` collections db.

Lemma grows_insert_one c doc : preserves grows (Store.insert_one c doc).
Proof.
  intros db db' r. unfold Store.insert_one, grows.
  destruct (Store.duplicate_key _ _ _ _); intros [= <- _]; [done|].
  destruct c; simpl; [done| |done]. by apply prefix_app_r.
Qed.

Lemma grows_write_at i old new : preserves grows (Store.write_at Files i old new).
Proof.
  intros db db' r. unfold Store.write_at, grows.
  case_bool_decide; [by intros [= <- _]|].
  by destruct (Store.duplicate_key _ _ _ _); intros [= <- _].
Qed.

Lemma grows_update_one f u : preserves grows (Store.update_one E Files f u).
Proof.
  intros db db' r. unfold Store.update_one.
  destruct (Store.find_first _ _ _) as [[i old]|]; [|by intros [= <- _]].
  destruct (Store.apply_update u old); [|by intros [= <- _]].
  apply grows_write_at.
Qed.

Lemma grows_replace_one f doc : preserves grows (Store.replace_one E Files f doc).
Proof.
  intros db db' r. unfold Store.replace_one.
  destruct (Store.find_first _ _ _) as [[i old]|]; [|by intros [= <- _]].
  apply grows_write_at.
Qed.

Lemma grows_delete_one f : preserves grows (Store.delete_one E Files f).
Proof.
  intros db db' r. unfold Store.delete_one, grows.
  by destruct (Store.find_first _ _ _) as [[i old]|]; intros [= <- _].
Qed.

Lemma collections_grow requests db :
  before `prefix_of` collections db →
  before `prefix_of` collections (Server.serve E requests db).1.
Proof.
  apply (preserves_serve E grows grows_insert_one grows_update_one
           grows_replace_one grows_delete_one).
Qed.
End collections_frozen.

Lemma get_collection_run (E : Env) f db :
  Mongo.get_collection E f db
  = (db, Ok ((λ r, delete "_id" r.2)
             <$> Store.find_first E f (collections db))).
Proof.
  unfold Mongo.get_collection, mbind, M_bind, get_db, mret, M_ret,
    Store.find_one. simpl.
  do 2 f_equal.
  destruct (Store.find_first E f (collections db)); simpl; [|done].
  by rewrite apply_projection_no_id.
Qed.

(** X2.  No request changes or removes a collection: after any sequence of
    requests the collections start with the collections there were, and a
    collection that a query found is still what the query finds. *)
Theorem collections_are_append_only
  (E : Env) (requests : list Server.Request) (db : Database) (f : Filter) :
  let db' := (Server.serve E requests db).1 in
  collections db `prefix_of` collections db'
  ∧ ∀ found, Mongo.get_collection E f db = (db, Ok (Some found)) →
             Mongo.get_collection E f db' = (db', Ok (Some found)).
Proof.
  intros db'.
  assert (Hprefix : collections db `prefix_of` collections db')
    by (by apply collections_grow).
  split; [done|]. intros found. destruct Hprefix as [later Hlater].
  rewrite !get_collection_run, Hlater.
  destruct (Store.find_first E f (collections db)) as [[i row]|] eqn:Hfind;
    [|done].
  intros [= <-]. unfold Store.find_first in *.
  by erewrite list_find_app_l.
Qed.

(** ** The unique indexes *)

Global Instance Coll_eq_dec : EqDecision Coll.
Proof. solve_decision. Defined.

Section indexes.
Context (E : Env).

Lemma collides_false_inv field others old new :
  Store.collides field others old new = false →
  ∀ key, key ∈ Store.index_keys field new →
    key ∈ from_option (Store.index_keys field) [] old
    ∨ ∀ d, d ∈ others → key ∉ Store.index_keys field d.
Proof.
  unfold Store.collides. intros Hfalse key Hkey.
  destruct (decide (key ∈ from_option (Store.index_keys field) [] old))
    as [|Hnew]; [by left|right].
  intros d Hd Hin. apply not_true_iff_false in Hfalse. apply Hfalse.
  eapply existsb_true; [exact Hkey|].
  rewrite bool_decide_eq_false_2 by done. simpl.
  eapply existsb_true; [exact Hd|]. by apply bool_decide_eq_true_2.
Qed.

Lemma duplicate_key_None c others old new field :
  Store.duplicate_key c others old new = None →
  field ∈ Store.unique_indexes c →
  Store.collides field others old new = false.
Proof.
  unfold Store.duplicate_key. intros Hfind Hfield.
  apply (List.find_none _ _ Hfind). by apply list_elem_of_In.
Qed.

Lemma unique_at_app field l doc :
  unique_at field l →
  (∀ key, key ∈ Store.index_keys field doc →
          ∀ d, d ∈ l → key ∉ Store.index_keys field d) →
  unique_at field (l ++ [doc]).
Proof.
  intros Hl Hdoc i j d1 d2 key Hi Hj Hk1 Hk2.
  apply lookup_app_Some in Hi as [Hi|[Hilen Hi]];
    apply lookup_app_Some in Hj as [Hj|[Hjlen Hj]].
  - by eapply Hl.
  - apply list_lookup_singleton_Some in Hj as [_ <-].
    destruct (Hdoc key Hk2 d1); [by eapply list_elem_of_lookup_2|done].
  - apply list_lookup_singleton_Some in Hi as [_ <-].
    destruct (Hdoc key Hk1 d2); [by eapply list_elem_of_lookup_2|done].
  - apply list_lookup_singleton_Some in Hi as [Hi _].
    apply list_lookup_singleton_Some in Hj as [Hj _]. lia.
Qed.

Lemma elem_of_delete_other {A} (l : list A) i j x :
  l !! j = Some x → j ≠ i → x ∈ delete i l.
Proof.
  intros Hj Hne. destruct (decide (j < i)%nat).
  - apply (list_elem_of_lookup_2 _ j). by rewrite list_lookup_delete_lt.
  - apply (list_elem_of_lookup_2 _ (pred j)).
    rewrite list_lookup_delete_ge by lia.
    by replace (S (pred j)) with j by lia.
Qed.

Lemma unique_at_insert field l i old new :
  unique_at field l → l !! i = Some old →
  (∀ key, key ∈ Store.index_keys field new →
          key ∈ Store.index_keys field old
          ∨ ∀ d, d ∈ delete i l → key ∉ Store.index_keys field d) →
  unique_at field (<[i := new]> l).
Proof.
  intros Hl Hold Hnew a b d1 d2 key Ha Hb Hk1 Hk2.
  assert (Hside : ∀ c d, l !! c = Some d → c ≠ i →
                         key ∈ Store.index_keys field new →
                         key ∈ Store.index_keys field d → False).
  { intros c d Hc Hne Hknew Hkd. destruct (Hnew key Hknew) as [Hkold|Hfree].
    - apply Hne. by eapply (Hl c i d old key).
    - apply (Hfree d); [by eapply elem_of_delete_other|done]. }
  apply list_lookup_insert_Some in Ha as [(-> & -> & _)|[Hai Ha]];
    apply list_lookup_insert_Some in Hb as [(Hbi & -> & _)|[Hbi Hb]];
    try done.
  - destruct (Hside b d2 Hb); auto.
  - subst b. destruct (Hside a d1 Ha); auto.
  - by eapply Hl.
Qed.

Lemma unique_at_delete field l i : unique_at field l → unique_at field (delete i l).
Proof.
  intros Hl a b d1 d2 key Ha Hb Hk1 Hk2.
  rewrite list_lookup_delete in Ha, Hb.
  repeat case_decide;
    pose proof (Hl _ _ _ _ key Ha Hb Hk1 Hk2); lia.
Qed.

Lemma indexes_insert_one c doc : preserves indexes_hold (Store.insert_one c doc).
Proof.
  intros db db' r. unfold Store.insert_one.
  destruct (Store.duplicate_key _ _ _ _) eqn:Hdup; intros [= <- _] Hdb; [done|].
  intros c' field Hfield.
  destruct (decide (c' = c)) as [->|Hne].
  - replace (Store.docs c _) with (Store.docs c db ++ [<["_id" := default
      (VObjectId (next_id db)) (doc !! "_id")]> doc]) by (by destruct c).
    apply unique_at_app; [by apply Hdb|].
    intros key Hkey d Hd.
    pose proof (duplicate_key_None _ _ _ _ _ Hdup Hfield) as Hcol.
    destruct (collides_false_inv _ _ _ _ Hcol key Hkey) as [Hin|Hfree].
    + by apply elem_of_nil in Hin.
    + by apply Hfree.
  - replace (Store.docs c' _) with (Store.docs c' db)
      by (by destruct c, c'). by apply Hdb.
Qed.

Lemma indexes_write_at c i old new db db' r :
  Store.write_at c i old new db = (db', r) →
  Store.docs c db !! i = Some old →
  indexes_hold db → indexes_hold db'.
Proof.
  unfold Store.write_at. case_bool_decide; [by intros [= <- _]|].
  destruct (Store.duplicate_key _ _ _ _) eqn:Hdup; intros [= <- _] Hi Hdb;
    [done|].
  intros c' field Hfield.
  destruct (decide (c' = c)) as [->|Hne].
  - replace (Store.docs c _) with (<[i := new]> (Store.docs c db))
      by (by destruct c).
    eapply unique_at_insert; [by apply Hdb|exact Hi|].
    apply (collides_false_inv _ _ (Some old)).
    by eapply duplicate_key_None.
  - replace (Store.docs c' _) with (Store.docs c' db)
      by (by destruct c, c'). by apply Hdb.
Qed.

Lemma indexes_update_one f u :
  preserves indexes_hold (Store.update_one E Files f u).
Proof.
  intros db db' r. unfold Store.update_one.
  destruct (Store.find_first _ _ _) as [[i old]|] eqn:Hfind;
    [|by intros [= <- _]].
  destruct (Store.apply_update u old); [|by intros [= <- _]].
  intros Hwrite. eapply indexes_write_at; [exact Hwrite|].
  by apply list_find_Some in Hfind as (? & _).
Qed.

Lemma indexes_replace_one f doc :
  preserves indexes_hold (Store.replace_one E Files f doc).
Proof.
  intros db db' r. unfold Store.replace_one.
  destruct (Store.find_first _ _ _) as [[i old]|] eqn:Hfind;
    [|by intros [= <- _]].
  intros Hwrite. eapply indexes_write_at; [exact Hwrite|].
  by apply list_find_Some in Hfind as (? & _).
Qed.

Lemma indexes_delete_one f : preserves indexes_hold (Store.delete_one E Files f).
Proof.
  intros db db' r. unfold Store.delete_one.
  destruct (Store.find_first _ _ _) as [[i old]|]; intros [= <- _] Hdb;
    [|done].
  intros c field Hfield. destruct c; simpl; try by apply (Hdb _ _ Hfield).
  apply unique_at_delete. by apply (Hdb Files).
Qed.

Lemma indexes_serve requests db :
  indexes_hold db → indexes_hold (Server.serve E requests db).1.
Proof.
  apply (preserves_serve E indexes_hold indexes_insert_one indexes_update_one
           indexes_replace_one indexes_delete_one).
Qed.

Lemma indexes_handle request db :
  indexes_hold db → indexes_hold (Server.handle E request db).1.
Proof.
  destruct (Server.handle E request db) as [db' r] eqn:Hrun.
  by eapply (preserves_handle E indexes_hold indexes_insert_one
               indexes_update_one indexes_replace_one indexes_delete_one).
Qed.
End indexes.

(** The empty catalog. *)
Lemma indexes_hold_empty : indexes_hold (mkDatabase [] [] [] 0).
Proof. intros [] field _ i j d1 d2 key Hi; simpl in Hi; by destruct i. Qed.



(** ** Insert, then look up *)

Section round_trips.
Context (E : Env).

Lemma uuid_is_indexed c : "uuid" ∈ Store.unique_indexes c.
Proof. destruct c; simpl; by right; left. Qed.

(** An accepted insert of a document with a uuid puts it last, and the
    index on [uuid] makes it the document the uuid finds. *)
Lemma insert_then_find c (doc : Metadata) db db' oid u :
  Store.insert_one c doc db = (db', Ok oid) →
  doc !! "uuid" = Some (VStr u) →
  Store.docs c db' = Store.docs c db ++ [<["_id" := oid]> doc]
  ∧ (∀ c', c' ≠ c → Store.docs c' db' = Store.docs c' db)
  ∧ Store.find_first E (FEq "uuid" (VStr u)) (Store.docs c db')
    = Some (length (Store.docs c db), <["_id" := oid]> doc).
Proof.
  unfold Store.insert_one.
  destruct (Store.duplicate_key _ _ _ _) eqn:Hdup; [done|].
  intros [= <- <-] Hu.
  set (doc' := <["_id" := default (VObjectId (next_id db)) (doc !! "_id")]> doc).
  assert (Hdocs : Store.docs c
            (mkDatabase
               (files (Store.set_docs c (Store.docs c db ++ [doc']) db))
               (collections (Store.set_docs c (Store.docs c db ++ [doc']) db))
               (snapshots (Store.set_docs c (Store.docs c db ++ [doc']) db))
               (next_id db + 1))
            = Store.docs c db ++ [doc']) by (by destruct c).
  split; [done|]. split; [by intros [] ?; destruct c|].
  rewrite Hdocs.
  assert (Hu' : doc' !! "uuid" = Some (VStr u))
    by (unfold doc'; by rewrite lookup_insert_ne).
  pose proof (duplicate_key_None _ _ _ _ _ Hdup (uuid_is_indexed c)) as Hcol.
  assert (Hkey : VStr u ∈ Store.index_keys "uuid" doc').
  { unfold Store.index_keys. rewrite Hu'. by left. }
  destruct (collides_false_inv _ _ _ _ Hcol (VStr u) Hkey) as [Hin|Hfree].
  { by apply elem_of_nil in Hin. }
  unfold Store.find_first. rewrite list_find_app_r; last first.
  { apply list_find_None, Forall_forall. intros d Hd Hm. simpl in Hm.
    apply bool_decide_eq_true in Hm. apply (Hfree d Hd).
    unfold Store.index_keys. rewrite Hm. by left. }
  simpl. rewrite decide_True; [done|]. simpl.
  by apply bool_decide_eq_true_2.
Qed.

Lemma create_file_inv (metadata : Metadata) db db' v :
  Mongo.create_file metadata db = (db', Ok v) →
  metadata !! "uuid" = Some v
  ∧ ∃ oid, Store.insert_one Files metadata db = (db', Ok oid).
Proof.
  unfold Mongo.create_file, mbind, M_bind.
  destruct (Store.insert_one Files metadata db) as [db1 [oid|e]]; [|done].
  destruct (negb (value_truthy oid)); [done|]. unfold getitem.
  destruct (metadata !! "uuid"); [|done]. intros [= <- <-]. eauto.
Qed.

Lemma create_collection_inv (metadata : Metadata) db db' v :
  Mongo.create_collection metadata db = (db', Ok v) →
  metadata !! "uuid" = Some v
  ∧ ∃ oid, Store.insert_one Collections metadata db = (db', Ok oid).
Proof.
  unfold Mongo.create_collection, mbind, M_bind.
  destruct (Store.insert_one Collections metadata db) as [db1 [oid|e]]; [|done].
  destruct (negb (value_truthy oid)); [done|]. unfold getitem.
  destruct (metadata !! "uuid"); [|done]. intros [= <- <-]. eauto.
Qed.

Lemma create_snapshot_inv (metadata : Metadata) db db' v :
  Mongo.create_snapshot metadata db = (db', Ok v) →
  metadata !! "uuid" = Some v
  ∧ ∃ oid, Store.insert_one Snapshots metadata db = (db', Ok oid).
Proof.
  unfold Mongo.create_snapshot, mbind, M_bind.
  destruct (Store.insert_one Snapshots metadata db) as [db1 [oid|e]]; [|done].
  destruct (negb (value_truthy oid)); [done|]. unfold getitem.
  destruct (metadata !! "uuid"); [|done]. intros [= <- <-]. eauto.
Qed.
End round_trips.

(** X4.  Round trip of [create_file] and [get_file]: when [create_file]
    returns, it returns the uuid of the metadata, the file is appended to
    the files, nothing else changes, and [get_file] by that uuid returns
    the metadata (without any row identifier). *)
Theorem create_file_then_get_file
  (E : Env) (metadata : Metadata) (db db' : Database) (v : value) (u : string) :
  Mongo.create_file metadata db = (db', Ok v) →
  metadata !! "uuid" = Some (VStr u) →
  v = VStr u
  ∧ length (files db') = S (length (files db))
  ∧ collections db' = collections db
  ∧ snapshots db' = snapshots db
  ∧ Mongo.get_file E (FEq "uuid" (VStr u)) db'
    = (db', Ok (Some (delete "_id" metadata))).
Proof.
  intros [Hv [oid Hinsert]]%create_file_inv Hu.
  destruct (insert_then_find E _ _ _ _ _ _ Hinsert Hu)
    as (Hdocs & Hother & Hfind).
  simpl in *. split_and!.
  - congruence.
  - rewrite Hdocs, length_app. simpl. lia.
  - by apply (Hother Collections).
  - by apply (Hother Snapshots).
  - rewrite get_file_run by done. rewrite Hfind. simpl.
    by rewrite delete_insert_eq.
Qed.

Lemma create_file_then_get_file_witness :
  ∃ db',
    Mongo.create_file
      (file_metadata "C" "/data/c" "cc" [location "WIPAC" "/data/c"]) demo_db
    = (db', Ok (VStr "C"))
    ∧ (VStr "C" = VStr "C"
       ∧ length (files db') = S (length (files demo_db))
       ∧ collections db' = collections demo_db
       ∧ snapshots db' = snapshots demo_db
       ∧ Mongo.get_file demo_env (FEq "uuid" (VStr "C")) db'
         = (db', Ok (Some (delete "_id"
              (file_metadata "C" "/data/c" "cc" [location "WIPAC" "/data/c"]))))).
Proof.
  eexists. split; [vm_compute; reflexivity|].
  apply create_file_then_get_file; vm_compute; reflexivity.
Defined.

(** X5.  The same round trip for collections and for snapshots: what
    [create_collection] and [create_snapshot] insert is what
    [get_collection] and [get_snapshot] return for the uuid. *)
Theorem create_then_get_collection_and_snapshot
  (E : Env) (metadata : Metadata) (db : Database) (u : string) :
  metadata !! "uuid" = Some (VStr u) →
  (∀ db' v,
     Mongo.create_collection metadata db = (db', Ok v) →
     v = VStr u ∧ files db' = files db ∧ snapshots db' = snapshots db
     ∧ Mongo.get_collection E (FEq "uuid" (VStr u)) db'
       = (db', Ok (Some (delete "_id" metadata))))
  ∧ (∀ db' v,
       Mongo.create_snapshot metadata db = (db', Ok v) →
       v = VStr u ∧ files db' = files db ∧ collections db' = collections db
       ∧ Mongo.get_snapshot E (FEq "uuid" (VStr u)) db'
         = (db', Ok (Some (delete "_id" metadata)))).
Proof.
  intros Hu. split; intros db' v.
  - intros [Hv [oid Hinsert]]%create_collection_inv.
    destruct (insert_then_find E _ _ _ _ _ _ Hinsert Hu)
      as (Hdocs & Hother & Hfind).
    simpl in *. split_and!.
    + congruence.
    + by apply (Hother Files).
    + by apply (Hother Snapshots).
    + rewrite get_collection_run, Hfind. simpl. by rewrite delete_insert_eq.
  - intros [Hv [oid Hinsert]]%create_snapshot_inv.
    destruct (insert_then_find E _ _ _ _ _ _ Hinsert Hu)
      as (Hdocs & Hother & Hfind).
    simpl in *. split_and!.
    + congruence.
    + by apply (Hother Files).
    + by apply (Hother Collections).
    + rewrite get_snapshot_run, Hfind. simpl. by rewrite delete_insert_eq.
Qed.

Lemma create_then_get_collection_and_snapshot_witness :
  (∃ db',
     Mongo.create_collection
       {[ "uuid" := VStr "c2"; "collection_name" := VStr "all" ]} demo_db
     = (db', Ok (VStr "c2"))
     ∧ Mongo.get_collection demo_env (FEq "uuid" (VStr "c2")) db'
       = (db', Ok (Some (delete "_id"
            {[ "uuid" := VStr "c2"; "collection_name" := VStr "all" ]}))))
  ∧ (∃ db',
       Mongo.create_snapshot
         {[ "uuid" := VStr "c2"; "collection_name" := VStr "all" ]} demo_db
       = (db', Ok (VStr "c2"))
       ∧ Mongo.get_snapshot demo_env (FEq "uuid" (VStr "c2")) db'
         = (db', Ok (Some (delete "_id"
              {[ "uuid" := VStr "c2"; "collection_name" := VStr "all" ]})))).
Proof.
  destruct (create_then_get_collection_and_snapshot demo_env
              {[ "uuid" := VStr "c2"; "collection_name" := VStr "all" ]}
              demo_db "c2") as [Hcollection Hsnapshot].
  { vm_compute. reflexivity. }
  split; eexists; (split; [vm_compute; reflexivity|]).
  - eapply Hcollection. vm_compute. reflexivity.
  - eapply Hsnapshot. vm_compute. reflexivity.
Defined.

(** ** Writes to a file that does not exist *)

Lemma get_file_None_inv (E : Env) u db :
  Mongo.get_file E (FEq "uuid" u) db = (db, Ok None) →
  Store.find_first E (FEq "uuid" u) (files db) = None.
Proof.
  rewrite get_file_run by done.
  by destruct (Store.find_first E (FEq "uuid" u) (files db)).
Qed.

(** X6.  When no file has the uuid, [update_file], [replace_file] and
    [append_distinct_elements_to_file] match nothing, find a modified count
    of 0 where 1 is expected, and raise; the store is left as it was. *)
Theorem writes_to_a_missing_file_raise
  (E : Env) (utcnow : string) (uuid : value) (metadata : Metadata)
  (db : Database) :
  Mongo.get_file E (FEq "uuid" uuid) db = (db, Ok None) →
  Mongo.update_file E uuid metadata db
  = (db, Raise (Exception ("updated 0 files with id " +:+ format_value E uuid)))
  ∧ Mongo.append_distinct_elements_to_file E utcnow uuid metadata db
    = (db, Raise (Exception ("updated 0 files with id " +:+ format_value E uuid)))
  ∧ (metadata !! "uuid" = Some uuid →
     Mongo.replace_file E metadata db
     = (db, Raise (Exception ("updated 0 files with id "
                              +:+ format_value E uuid)))).
Proof.
  intros Hnone%get_file_None_inv. split_and!.
  - unfold Mongo.update_file, mbind, M_bind, Store.update_one. simpl.
    by rewrite Hnone.
  - unfold Mongo.append_distinct_elements_to_file, mbind, M_bind,
      Store.update_one. simpl. by rewrite Hnone.
  - intros Hu. unfold Mongo.replace_file.
    erewrite run_bind by (by apply run_getitem).
    unfold mbind, M_bind, Store.replace_one. simpl. by rewrite Hnone.
Qed.

Lemma writes_to_a_missing_file_raise_witness :
  Mongo.update_file demo_env (VStr "Z") {[ "uuid" := VStr "Z" ]} demo_db
  = (demo_db, Raise (Exception ("updated 0 files with id "
                                +:+ format_value demo_env (VStr "Z"))))
  ∧ Mongo.append_distinct_elements_to_file demo_env "2021-01-01" (VStr "Z")
      {[ "uuid" := VStr "Z" ]} demo_db
    = (demo_db, Raise (Exception ("updated 0 files with id "
                                  +:+ format_value demo_env (VStr "Z"))))
  ∧ (({[ "uuid" := VStr "Z" ]} : Metadata) !! "uuid" = Some (VStr "Z") →
     Mongo.replace_file demo_env {[ "uuid" := VStr "Z" ]} demo_db
     = (demo_db, Raise (Exception ("updated 0 files with id "
                                   +:+ format_value demo_env (VStr "Z"))))).
Proof.
  apply (writes_to_a_missing_file_raise demo_env "2021-01-01" (VStr "Z")
           {[ "uuid" := VStr "Z" ]} demo_db).
  vm_compute. reflexivity.
Defined.

(** ** Listings *)

Section listings.
Context (E : Env).



End listings.



(** ** Rate limiting *)

Section rate_limit.
Import APIHandler.

Lemma RateLimit_eq (s1 s2 : RateLimit) :
  rate_limit s1 = rate_limit s2 → rate_limit_data s1 = rate_limit_data s2 →
  s1 = s2.
Proof. destruct s1, s2. simpl. by intros -> ->. Qed.

End rate_limit.





(** X10.  A handler that was just initialised never rate-limits: whatever
    the configured limit (zero and negative ones included), [initialize]
    empties the table, so [prepare] lets the request through with a count
    of 1 and [on_finish] empties the table again. *)
Theorem fresh_handler_is_never_rate_limited (limit : Z) (ip : string) :
  APIHandler.prepare ip (APIHandler.initialize limit)
  = (APIHandler.mkRateLimit (limit - 1) {[ ip := 1 ]}, None)
  ∧ APIHandler.on_finish ip (APIHandler.prepare ip
                               (APIHandler.initialize limit)).1
    = Ok (APIHandler.initialize limit).
Proof.
  split; [done|].
  unfold APIHandler.on_finish, APIHandler.prepare, APIHandler.initialize.
  simpl. rewrite lookup_empty. simpl. rewrite lookup_insert_eq. simpl.
  f_equal. apply RateLimit_eq; simpl; [done|].
  rewrite insert_empty. apply delete_singleton_eq.
Qed.

(** ** Authorization *)

Lemma lower_char_space (c : ascii) :
  lower_char c = " "%char → c = " "%char.
Proof.
  destruct c as [[] [] [] [] [] [] [] []]; vm_compute; congruence.
Qed.

(** A scheme that holds no space once in lower case holds none, so the
    header splits right after it. *)
Lemma split_once_scheme (scheme token : string) :
  (split_once (lower scheme)).2 = None →
  split_once (scheme +:+ " " +:+ token) = (scheme, Some token).
Proof.
  induction scheme as [|c scheme IH]; [done|].
  change (lower (String c scheme)) with (String (lower_char c) (lower scheme)).
  change (String c scheme +:+ " " +:+ token)
    with (String c (scheme +:+ " " +:+ token)).
  cbn [split_once]. destruct (decide (c = " "%char)) as [->|Hc]; [done|].
  rewrite (bool_decide_eq_false_2 (c = " "%char)) by done.
  rewrite bool_decide_eq_false_2
    by (intros Hl; by apply Hc, lower_char_space).
  destruct (split_once (lower scheme)) as [a b]. simpl. intros ->.
  by rewrite IH.
Qed.

Lemma split_once_Some (s a b : string) :
  split_once s = (a, Some b) → s = a +:+ " " +:+ b.
Proof.
  revert a. induction s as [|c s IH]; intros a; simpl; [done|].
  case_bool_decide as Hc.
  - intros [= <- <-]. by subst c.
  - destruct (split_once s) as [a' b'] eqn:Hs. intros [= <- ->].
    by rewrite (IH a' eq_refl).
Qed.

(** X11.  [validate_auth] guards the method.  Without an authenticator the
    method runs.  With one, the method runs exactly for the requests whose
    [Authorization] header is [<scheme> <token>] with the scheme [bearer]
    (in any case) and a token the validator accepts; every other request is
    answered 403 "Authorization error", and neither the method nor the store
    is touched. *)
Theorem validate_auth_guards_the_method
  (E : Env) (validate : string → option Exn) (headers : gmap string string)
  (method : M Response) :
  validate_auth E None headers method = method
  ∧ (authorized validate headers →
     validate_auth E (Some validate) headers method = method)
  ∧ (¬ authorized validate headers →
     ∀ db, ∃ response,
       validate_auth E (Some validate) headers method db = (db, Ok response)
       ∧ status response = 403
       ∧ body response !! "message" = Some (VStr "Authorization error")).
Proof.
  split_and!; [done| |].
  - intros (scheme & token & Hheader & Hscheme & Htoken).
    unfold validate_auth. rewrite Hheader.
    rewrite (split_once_scheme scheme token) by (by rewrite Hscheme).
    simpl.
    rewrite Hscheme. simpl. by rewrite Htoken.
  - intros Hno db.
    assert (Hsent : ∀ e, ∃ response,
      (let kwargs : Metadata := {[ "message" := VStr "Authorization error" ]} in
       let kwargs :=
         if debug E then <["exception" := VStr (Server.exn_str e)]> kwargs
         else kwargs in
       (mret (Server.send_error 403 kwargs) : M Response)) db
      = (db, Ok response)
      ∧ status response = 403
      ∧ body response !! "message" = Some (VStr "Authorization error")).
    { intros e. cbv zeta. unfold mret, M_ret. eexists.
      split; [reflexivity|]. split; [reflexivity|].
      simpl. destruct (debug E); [|done].
      by rewrite lookup_insert_ne. }
    unfold validate_auth.
    destruct (headers !! "Authorization") as [header|] eqn:Hheader;
      [|exact (Hsent (KeyError "Authorization"))].
    destruct (split_once header) as [scheme [token|]] eqn:Hsplit; simpl.
    + case_bool_decide as Hscheme; simpl;
        [|exact (Hsent (Exception "not a bearer token"))].
      destruct (validate token) as [e|] eqn:Htoken; [exact (Hsent e)|].
      destruct Hno. exists scheme, token. split_and!; [|done..].
      by rewrite (split_once_Some _ _ _ Hsplit) in Hheader.
    + destruct (bool_decide (lower scheme = "bearer")); simpl;
        [exact (Hsent (Exception "list index out of range"))
        |exact (Hsent (Exception "not a bearer token"))].
Qed.

Lemma validate_auth_guards_the_method_witness :
  validate_auth demo_env
    (Some (λ token, if bool_decide (token = "s3cret") then None
                    else Some (Exception "invalid token")))
    {[ "Authorization" := "BEARER s3cret" ]}
    (Server.handle demo_env (Server.GET_file "A"))
  = Server.handle demo_env (Server.GET_file "A").
Proof.
  apply validate_auth_guards_the_method.
  exists "BEARER", "s3cret". by vm_compute.
Defined.

(** ** Deleting a file *)

Section deleting.
Context (E : Env).

Lemma filter_all {A} (P : A → Prop) `{∀ x, Decision (P x)} (l : list A) :
  (∀ y, y ∈ l → P y) → filter P l = l.
Proof.
  induction l as [|a l IH]; intros Hall; [done|].
  rewrite filter_cons_True by (apply Hall; by left).
  f_equal. apply IH. intros y Hy. apply Hall. by right.
Qed.

(** Deleting the only element that satisfies a predicate leaves the
    elements that do not satisfy it. *)
Lemma delete_only_match {A} (P : A → Prop) `{∀ x, Decision (P x)}
  (l : list A) i x :
  l !! i = Some x → P x →
  (∀ j y, l !! j = Some y → P y → j = i) →
  delete i l = filter (λ y, ¬ P y) l.
Proof.
  revert i. induction l as [|a l IH]; intros i Hi Hx Honly; [done|].
  destruct i as [|i]; simpl in *.
  - injection Hi as ->. rewrite filter_cons_False by tauto.
    symmetry. apply filter_all. intros y Hy Hp.
    apply list_elem_of_lookup_1 in Hy as [j Hj].
    by specialize (Honly (S j) y Hj Hp).
  - assert (¬ P a) by (intros Ha; by specialize (Honly 0%nat a eq_refl Ha)).
    rewrite filter_cons_True by done. f_equal.
    apply IH; [done..|]. intros j y Hj Hy.
    specialize (Honly (S j) y Hj Hy). lia.
Qed.

Lemma uuid_unique db u i j d1 d2 :
  indexes_hold db →
  files db !! i = Some d1 → files db !! j = Some d2 →
  d1 !! "uuid" = Some u → d2 !! "uuid" = Some u → i = j.
Proof.
  intros Hdb Hi Hj H1 H2.
  assert (Hix : "uuid" ∈ Store.unique_indexes Files) by (by right; left).
  assert (Hkey : ∃ key, key ∈ Store.index_keys "uuid" d1
                        ∧ key ∈ Store.index_keys "uuid" d2).
  { unfold Store.index_keys. rewrite H1, H2.
    destruct u as [| | | | |[|x l]|]; eexists; split; by left. }
  destruct Hkey as (key & Hk1 & Hk2).
  exact (Hdb Files "uuid" Hix i j d1 d2 key Hi Hj Hk1 Hk2).
Qed.

Lemma delete_file_run u db :
  Mongo.delete_file E (FEq "uuid" u) db
  = match Store.find_first E (FEq "uuid" u) (files db) with
    | Some (i, _) =>
        (mkDatabase (delete i (files db)) (collections db) (snapshots db)
           (next_id db), Ok ())
    | None =>
        (db, Raise (Exception ("deleted 0 files with filter "
                               +:+ py_str E (VObj [("uuid", u)]))))
    end.
Proof.
  unfold Mongo.delete_file, mbind, M_bind, Store.delete_one. simpl.
  by destruct (Store.find_first E (FEq "uuid" u) (files db)) as [[i row]|].
Qed.
End deleting.

(** X12.  [SingleFileHandler.delete] over a store whose unique indexes
    hold.  When no file has the uuid the answer is 404 and nothing changes
    ([delete_file] raises on a deleted count of 0).  Otherwise the answer is
    204 and the files that remain are exactly the files with another uuid,
    in their order; collections and snapshots are untouched.  Either way a
    GET of the uuid is answered 404 afterwards. *)
Theorem delete_removes_the_file
  (E : Env) (uuid : string) (db : Database) :
  indexes_hold db →
  let found := Store.find_first E (FEq "uuid" (VStr uuid)) (files db) in
  let not_found :=
    Server.send_error 404 {[ "reason" := VStr "File uuid not found" ]} in
  let db' := (Server.handle E (Server.DELETE_file uuid) db).1 in
  Server.handle E (Server.DELETE_file uuid) db
  = (db', Ok (match found with
              | Some _ => mkResponse 204 ∅
              | None => not_found
              end))
  ∧ (found = None → db' = db)
  ∧ files db' = filter (λ d, d !! "uuid" ≠ Some (VStr uuid)) (files db)
  ∧ collections db' = collections db
  ∧ snapshots db' = snapshots db
  ∧ Server.handle E (Server.GET_file uuid) db' = (db', Ok not_found).
Proof.
  intros Hdb found not_found db'.
  assert (Hget : ∀ d : Database,
    files d = filter (λ d, d !! "uuid" ≠ Some (VStr uuid)) (files db) →
    Server.handle E (Server.GET_file uuid) d = (d, Ok not_found)).
  { intros d Hd. apply catch_error_ok. unfold Server.SingleFileHandler_get.
    erewrite run_bind by (by apply get_file_run).
    replace (Store.find_first E (FEq "uuid" (VStr uuid)) (files d))
      with (@None (nat * Metadata)); [done|].
    symmetry. apply list_find_None, Forall_forall. intros row Hrow.
    rewrite Hd in Hrow. apply list_elem_of_filter in Hrow as [Hne _].
    simpl. by rewrite bool_decide_eq_false_2. }
  assert (Hrun : Server.handle E (Server.DELETE_file uuid) db
    = match found with
      | Some (i, _) =>
          (mkDatabase (delete i (files db)) (collections db) (snapshots db)
             (next_id db), Ok (mkResponse 204 ∅))
      | None => (db, Ok not_found)
      end).
  { simpl. unfold Server.catch_error, Server.SingleFileHandler_delete.
    rewrite delete_file_run. fold found. by destruct found as [[i row]|]. }
  subst db'. rewrite Hrun. clear Hrun.
  destruct found as [[i row]|] eqn:Hfound; simpl.
  - assert (Hfiles : delete i (files db)
      = filter (λ d, d !! "uuid" ≠ Some (VStr uuid)) (files db)).
    { subst found. apply list_find_Some in Hfound as (Hi & Hrow & _).
      simpl in Hrow. apply bool_decide_eq_true in Hrow.
      apply (delete_only_match (λ d : Metadata, d !! "uuid" = Some (VStr uuid))
               (files db) i row Hi Hrow).
      intros j y Hj Hy.
      apply (uuid_unique db (VStr uuid) j i y row Hdb Hj Hi Hy Hrow). }
    split_and!; [done|done|done..|]. by apply Hget.
  - assert (Hfiles : files db
      = filter (λ d, d !! "uuid" ≠ Some (VStr uuid)) (files db)).
    { symmetry. apply filter_all. intros d Hd.
      subst found. apply list_find_None in Hfound.
      rewrite Forall_forall in Hfound. specialize (Hfound d Hd).
      simpl in Hfound. intros Heq. apply Hfound.
      by apply bool_decide_eq_true_2. }
    split_and!; [done..|]. by apply Hget.
Qed.

Lemma delete_removes_the_file_witness :
  let db :=
    (Server.serve demo_env
       [Server.POST_files "2021-01-01" "fresh"
          (file_metadata "A" "/data/a" "aa" [location "WIPAC" "/data/a"]);
        Server.POST_files "2021-01-02" "fresh"
          (file_metadata "B" "/data/b" "bb" [location "WIPAC" "/data/b"])]
       (mkDatabase [] [] [] 0)).1 in
  let db' := (Server.handle demo_env (Server.DELETE_file "A") db).1 in
  Server.handle demo_env (Server.DELETE_file "A") db
  = (db', Ok (mkResponse 204 ∅))
  ∧ files db' = filter (λ d, d !! "uuid" ≠ Some (VStr "A")) (files db)
  ∧ Server.handle demo_env (Server.GET_file "A") db'
    = (db', Ok (Server.send_error 404
                  {[ "reason" := VStr "File uuid not found" ]})).
Proof.
  intros db db'.
  destruct (delete_removes_the_file demo_env "A" db)
    as (Hrun & _ & Hfiles & _ & _ & Hget).
  - apply indexes_serve, indexes_hold_empty.
  - split_and!; [|exact Hfiles|exact Hget].
    etrans; [exact Hrun|]. vm_compute. reflexivity.
Defined.

(** ** What [_limit_results] returns *)

Lemma limit_loop_general {A} (e start i : Z) (cursor : list A) :
  start ≤ i → e ≠ 0 →
  Mongo.limit_loop (Some e) start i cursor
  = take (S (Z.to_nat (e - i))) cursor.
Proof.
  intros Hi He. revert i Hi.
  induction cursor as [|row cursor IH]; intros i Hi; simpl; [done|].
  rewrite (proj2 (Z.ltb_ge i start)) by lia. f_equal.
  rewrite (proj2 (Z.eqb_neq e 0)) by lia. simpl.
  destruct (Z.leb_spec e i) as [Hle|Hlt].
  - replace (Z.to_nat (e - i)) with 0%nat by lia. by rewrite take_0.
  - rewrite IH by lia. f_equal. lia.
Qed.

(** X13.  [_limit_results], for every cursor, limit and start.  With a
    positive [start] nothing is yielded (skipped rows are not counted).
    Otherwise every row is yielded when there is no limit or when
    [start + limit] is 0, and else the rows up to the one numbered
    [start + limit], at least the first one. *)
Theorem limit_results_for_every_start_and_limit
  {A : Type} (cursor : list A) (limit : option Z) (start : Z) :
  Mongo._limit_results cursor limit start
  = if 0 <? start then []
    else match limit with
         | None => cursor
         | Some l =>
             if start + l =? 0 then cursor
             else take (S (Z.to_nat (start + l))) cursor
         end.
Proof.
  destruct (Z.ltb_spec 0 start) as [Hpos|Hneg].
  - by apply limit_results_positive_start.
  - unfold Mongo._limit_results. destruct limit as [l|].
    + destruct (Z.eqb_spec (start + l) 0) as [Hz|Hnz].
      * apply limit_loop_unbounded; [done|]. simpl. by rewrite Hz.
      * rewrite limit_loop_general by done. do 2 f_equal. lia.
    + by apply limit_loop_unbounded.
Qed.

(** ** Counting and listing *)





(** ** Creating a file through the API *)

Section returns_basics.
Context {A B : Type}.

Lemma returns_bind (Q : B → Prop) (m : M A) (f : A → M B) :
  (∀ a, returns Q (f a)) → returns Q (m ≫= f).
Proof.
  intros Hf db db' b. unfold mbind, M_bind.
  destruct (m db) as [db1 [a|e]]; [|done]. apply Hf.
Qed.

Lemma returns_ret (Q : A → Prop) (a : A) : Q a → returns Q (mret a).
Proof. by intros Ha db db' a' [= _ <-]. Qed.

Lemma returns_raise (Q : A → Prop) e : returns Q (raise e).
Proof. by intros db db' a. Qed.
End returns_basics.

Ltac returns_step :=
  first [ apply returns_ret | apply returns_raise
        | apply returns_bind; intros ?
        | match goal with
          | |- returns _ (if ?b then _ else _) => destruct b
          | |- returns _ (match ?x with _ => _ end) => destruct x
          end ].

(** X16.  A file created by [POST /files] is the file [GET /files/<uuid>]
    returns.  When the schema and path checks pass and the answer is 201,
    no file had the uuid (the one of the body, or else the generated one),
    the metadata with its modification date is appended to the files, the
    answer links to the uuid, and a GET of the uuid answers 200 with that
    metadata (without the row identifier) and its links. *)
Theorem post_files_then_get_file
  (E : Env) (utcnow uuid1 uuid : string) (request_body : Metadata)
  (db db' : Database) (response : Response) :
  let metadata0 :=
    if bool_decide (request_body !! "uuid" = None)
    then <["uuid" := VStr uuid1]> request_body else request_body in
  let metadata := Server.set_last_modification_date utcnow metadata0 in
  validate_metadata_creation E metadata0 = None →
  contains_existing_filepaths E db metadata None = None →
  metadata !! "uuid" = Some (VStr uuid) →
  Server.handle E (Server.POST_files utcnow uuid1 request_body) db
  = (db', Ok response) →
  status response = 201 →
  Mongo.get_file E (FEq "uuid" (VStr uuid)) db = (db, Ok None)
  ∧ (∃ oid, files db' = files db ++ [<["_id" := oid]> metadata])
  ∧ collections db' = collections db
  ∧ snapshots db' = snapshots db
  ∧ body response
    = {[ "_links" := Server.links (Server.files_url E) (base_url E);
         "file" := VStr (Server.path_join (Server.files_url E) uuid) ]}
  ∧ Server.handle E (Server.GET_file uuid) db'
    = (db', Ok (mkResponse 200
         (<["_links" := Server.links
                          (Server.path_join (Server.files_url E) uuid)
                          (Server.files_url E)]>
            (delete "_id" metadata)))).
Proof.
  intros metadata0 metadata Hvalid Hpaths Huuid Hrun H201.
  simpl in Hrun. unfold Server.catch_error in Hrun.
  destruct (Server.FilesHandler_post E utcnow uuid1 request_body db)
    as [db1 [r|e]] eqn:Hpost; last first.
  { injection Hrun as _ <-. done. }
  injection Hrun as -> ->.
  unfold Server.FilesHandler_post in Hpost. cbv zeta in Hpost.
  fold metadata0 in Hpost. rewrite Hvalid in Hpost.
  fold metadata in Hpost.
  unfold mbind at 1, M_bind at 1, get_db in Hpost.
  rewrite Hpaths in Hpost.
  erewrite run_bind in Hpost by (by apply run_getitem).
  erewrite run_bind in Hpost by (by apply get_file_run).
  rewrite (get_file_run E) by done.
  destruct (Store.find_first E (FEq "uuid" (VStr uuid)) (files db))
    as [[i row]|] eqn:Hfind.
  - exfalso.
    change ((λ r : nat * Metadata, delete "_id" r.2) <$> Some (i, row))
      with (Some (delete "_id" row)) in Hpost.
    rewrite (truthy_Some _ "uuid" (VStr uuid)) in Hpost
      by (rewrite lookup_delete_ne by done; by eapply find_first_FEq).
    revert Hpost. unfold mbind at 1, M_bind at 1.
    match goal with
    | |- context [match ?m db with _ => _ end] =>
        assert (Hshape : returns
          (λ x : Response + Z * value,
             match x with
             | inl err => status err = 409
             | inr (code, _) => code = 200
             end) m) by (repeat returns_step; done);
        destruct (m db) as [db2 [x|e]] eqn:Hbranch; [|done];
        apply Hshape in Hbranch
    end.
    destruct x as [err|[code v]].
    + intros [= _ <-]. lia.
    + subst code. unfold mbind, M_bind.
      destruct (Server.as_str v db2) as [db3 [u|e]]; [|done].
      intros [= _ <-]. simpl in H201. lia.
  - change ((λ r : nat * Metadata, delete "_id" r.2) <$> None)
      with (@None Metadata) in *.
    change (Server.truthy None) with (@None Metadata) in Hpost.
    cbv beta iota in Hpost.
    revert Hpost. unfold mbind, M_bind.
    destruct (Mongo.create_file metadata db) as [db2 [v|e]] eqn:Hcreate;
      [|done].
    apply create_file_inv in Hcreate as [Hv [oid Hinsert]].
    rewrite Huuid in Hv. injection Hv as <-.
    destruct (insert_then_find E _ _ _ _ _ _ Hinsert Huuid)
      as (Hdocs & Hother & Hfound).
    simpl. intros [= <- <-]. simpl in *.
    split_and!; [done|by exists oid| | |done|].
    + by apply (Hother Collections).
    + by apply (Hother Snapshots).
    + apply catch_error_ok. unfold Server.SingleFileHandler_get.
      erewrite run_bind by (by apply get_file_run).
      rewrite Hfound. cbn [fmap option_fmap option_map snd].
      rewrite (truthy_Some _ "uuid" (VStr uuid)); last first.
      { rewrite lookup_delete_ne by done. by rewrite lookup_insert_ne. }
      by rewrite delete_insert_eq.
Qed.

Lemma post_files_then_get_file_witness :
  let request_body :=
    file_metadata "N" "/data/n" "nn" [location "WIPAC" "/data/n"] in
  let db' :=
    (Server.handle demo_env
       (Server.POST_files "2021-01-01" "fresh" request_body) demo_db).1 in
  Server.handle demo_env (Server.GET_file "N") db'
  = (db', Ok (mkResponse 200
       (<["_links" := Server.links
                        (Server.path_join (Server.files_url demo_env) "N")
                        (Server.files_url demo_env)]>
          (delete "_id"
             (Server.set_last_modification_date "2021-01-01" request_body))))).
Proof.
  intros request_body db'.
  refine (proj2 (proj2 (proj2 (proj2 (proj2
    (post_files_then_get_file demo_env "2021-01-01" "fresh" "N" request_body
       demo_db db'
       (mkResponse 201
          {[ "_links" := Server.links (Server.files_url demo_env)
                           (base_url demo_env);
             "file" := VStr (Server.path_join (Server.files_url demo_env)
                               "N") ]})
       _ _ _ _ _)))))).
  - reflexivity.
  - reflexivity.
  - vm_compute. reflexivity.
  - vm_compute. reflexivity.
  - reflexivity.
Defined.
